(** * A shallow embedding of [src/App.jsx]

    The client is a React single-page application.  This development
    embeds the parts of it that carry logic of their own: the [api]
    helper, the [validator] object, the [AuthProvider] session store,
    the sign-in form's [validate], the like toggle of [Post] and the
    compose handler of [FeedPage].

    - JavaScript strings are sequences of UTF-16 code units ([jsstring]).
    - JavaScript values are the primitives, arrays and objects ([jsval]).
    - Asynchronous handlers are finite trees of effects ([Async]): a
      [fetch] call, a console line, a React state update, a thrown error. *)

From Stdlib Require Import List Bool Arith NArith ZArith Lia String Ascii.
From Stdlib Require Import DecimalString.
Import ListNotations.

Set Implicit Arguments.
Set Warnings "-register-all,-abstract-large-number".

(** ** Strings *)

Module JsString.

Local Open Scope N_scope.

(** A code unit of a JavaScript string. *)
Definition char16 := N.

Definition jsstring := list char16.

(** The code units of a source literal (all literals of the program are
    ASCII). *)
Definition lit (s : string) : jsstring :=
  map N_of_ascii (list_ascii_of_string s).

Definition eqb (a b : jsstring) : bool :=
  if list_eq_dec N.eq_dec a b then true else false.

(** [c] lies in the inclusive range [lo..hi]. *)
Definition in_range (lo hi c : char16) : bool :=
  (N.leb lo c && N.leb c hi)%bool.

Arguments in_range (lo hi c)%_N_scope.

(** ECMAScript WhiteSpace and LineTerminator code points: the characters
    [String.prototype.trim] strips and the regular expression class [\s]
    matches. *)
Definition is_whitespace (c : char16) : bool :=
  (in_range 9 13 c          (* TAB, LF, VT, FF, CR *)
   || N.eqb c 32            (* SPACE *)
   || N.eqb c 160           (* NO-BREAK SPACE *)
   || N.eqb c 5760          (* OGHAM SPACE MARK *)
   || in_range 8192 8202 c  (* EN QUAD .. HAIR SPACE *)
   || N.eqb c 8232          (* LINE SEPARATOR *)
   || N.eqb c 8233          (* PARAGRAPH SEPARATOR *)
   || N.eqb c 8239          (* NARROW NO-BREAK SPACE *)
   || N.eqb c 8287          (* MEDIUM MATHEMATICAL SPACE *)
   || N.eqb c 12288         (* IDEOGRAPHIC SPACE *)
   || N.eqb c 65279)%bool.  (* ZERO WIDTH NO-BREAK SPACE *)

Fixpoint trim_start (s : jsstring) : jsstring :=
  match s with
  | c :: s' => if is_whitespace c then trim_start s' else s
  | [] => []
  end.

Definition trim_end (s : jsstring) : jsstring :=
  rev (trim_start (rev s)).

(** [String.prototype.trim]. *)
Definition trim (s : jsstring) : jsstring :=
  trim_end (trim_start s).

(** [s.length] as a JavaScript number. *)
Definition length (s : jsstring) : Z := Z.of_nat (List.length s).

(** Truthiness of a string: every string but the empty one. *)
Definition truthy (s : jsstring) : bool :=
  match s with [] => false | _ => true end.

End JsString.

Import JsString.

(** ** Regular expressions

  The two patterns of the program are anchored sequences of quantified
  character classes, [^ c1{a1,b1} c2{a2,b2} ... $], without flags. *)

Module Regex.

Record atom := Atom {
  cls : char16 -> bool;     (* the character class *)
  rmin : nat;               (* least number of repetitions *)
  rmax : option nat         (* greatest number, [None] for unbounded *)
}.

Definition once (c : char16 -> bool) : atom := Atom c 1 (Some 1).
Definition plus (c : char16 -> bool) : atom := Atom c 1 None.
Definition between (c : char16 -> bool) (lo hi : nat) : atom :=
  Atom c lo (Some hi).

Definition allows_more (m : option nat) : bool :=
  match m with Some 0 => false | _ => true end.

Definition dec (m : option nat) : option nat := option_map pred m.

(** Match between [lo] and [hi] characters of class [c] at the head of
    [s], then continue with [k] on the rest (every split is tried). *)
Fixpoint repeat (c : char16 -> bool) (lo : nat) (hi : option nat)
         (k : jsstring -> bool) (s : jsstring) : bool :=
  ((Nat.eqb lo 0 && k s)
   || match s with
      | x :: s' => c x && allows_more hi && repeat c (pred lo) (dec hi) k s'
      | [] => false
      end)%bool.

(** [^ atoms $] against the whole of [s]. *)
Fixpoint anchored (atoms : list atom) (s : jsstring) : bool :=
  match atoms with
  | [] => match s with [] => true | _ => false end
  | a :: rest => repeat (cls a) (rmin a) (rmax a) (anchored rest) s
  end.

(** [RegExp.prototype.test] for an anchored pattern. *)
Definition test (atoms : list atom) (s : jsstring) : bool := anchored atoms s.

End Regex.

(** ** Values *)

Inductive prim :=
| PUndefined
| PNull
| PBool (b : bool)
| PNum (z : Z)
| PStr (s : jsstring).

(** Values as [JSON.parse] builds them, with [undefined] for what a
    property read or a missing argument yields.  Numbers are the integers. *)
Inductive jsval :=
| VPrim (p : prim)
| VArr (items : list jsval)
| VObj (fields : list (jsstring * jsval)).

Definition undefined : jsval := VPrim PUndefined.
Definition null : jsval := VPrim PNull.
Definition str (s : jsstring) : jsval := VPrim (PStr s).

Definition prim_eq_dec (a b : prim) : {a = b} + {a <> b}.
Proof.
  decide equality.
  - apply Bool.bool_dec.
  - apply Z.eq_dec.
  - apply (list_eq_dec N.eq_dec).
Defined.

(** [a === b] on primitives. *)
Definition strict_eq (a b : prim) : bool :=
  if prim_eq_dec a b then true else false.

Definition prim_truthy (p : prim) : bool :=
  match p with
  | PUndefined | PNull => false
  | PBool b => b
  | PNum z => negb (Z.eqb z 0)
  | PStr s => truthy s
  end.

Definition val_truthy (v : jsval) : bool :=
  match v with
  | VPrim p => prim_truthy p
  | VArr _ | VObj _ => true
  end.

(** [a || b] *)
Definition val_or (a b : jsval) : jsval := if val_truthy a then a else b.

(** Errors a promise rejects with. *)
Inductive js_error :=
| Error (message : jsstring)                (* [new Error(message)] *)
| TypeErrorRead (of_ : prim) (key : jsstring) (* a property read of [null] or [undefined] *)
| TypeErrorConvert                            (* an object that converts to no primitive *)
| HostError (name message : jsstring).       (* raised by [fetch] or [res.json] *)

Definition result (A : Type) : Type := (js_error + A)%type.

Fixpoint lookup {V : Type} (k : jsstring) (fields : list (jsstring * V)) : option V :=
  match fields with
  | [] => None
  | (k', v) :: rest => if eqb k k' then Some v else lookup k rest
  end.

(** [obj[k] = v]: an existing key keeps its place, a new key goes last
    (the order in which JavaScript lists keys that are not integer-like;
    integer-like keys, which it lists first, are outside this model). *)
Fixpoint obj_set {V : Type} (k : jsstring) (v : V) (fields : list (jsstring * V))
  : list (jsstring * V) :=
  match fields with
  | [] => [(k, v)]
  | (k', v') :: rest =>
      if eqb k k' then (k, v) :: rest else (k', v') :: obj_set k v rest
  end.

(** [{...base, ...extra}] *)
Definition spread {V : Type} (base extra : list (jsstring * V)) : list (jsstring * V) :=
  fold_left (fun acc kv => obj_set (fst kv) (snd kv) acc) extra base.

(** [Object.keys(o)] *)
Definition keys {V : Type} (o : list (jsstring * V)) : list jsstring := map fst o.

(** [v.key], for a [key] that names no built-in property of strings,
    arrays or [Object.prototype]. *)
Definition get_prop (v : jsval) (key : jsstring) : result jsval :=
  match v with
  | VPrim PUndefined => inl (TypeErrorRead PUndefined key)
  | VPrim PNull => inl (TypeErrorRead PNull key)
  | VPrim _ | VArr _ => inr undefined
  | VObj fields =>
      match lookup key fields with
      | Some x => inr x
      | None => inr undefined
      end
  end.

(** The host the bundle runs on: the JavaScript engine's number printing
    and the build-time environment variable [VITE_API_URL]. *)
Class Host := {
  NumberToString : Z -> jsstring;
  VITE_API_URL : option jsstring
}.

Definition prim_ToString `{Host} (p : prim) : jsstring :=
  match p with
  | PUndefined => lit "undefined"
  | PNull => lit "null"
  | PBool true => lit "true"
  | PBool false => lit "false"
  | PNum z => NumberToString z
  | PStr s => s
  end.

(** [String(v)], as [new Error(v)] and [Array.prototype.join] apply it.
    An array joins its elements with commas, [null] and [undefined]
    elements printing as nothing.  An object prints as [[object Object]]
    through the [toString] it inherits; an own [toString] key hides that
    method behind a value that cannot be called (no parsed value can), and
    the [valueOf] that is tried next answers no primitive, so the
    conversion throws a [TypeError]. *)
Fixpoint ToString `{Host} (v : jsval) : result jsstring :=
  match v with
  | VPrim p => inr (prim_ToString p)
  | VArr items =>
      let element x :=
        match x with
        | VPrim PUndefined | VPrim PNull => inr []
        | _ => ToString x
        end in
      (fix join (l : list jsval) : result jsstring :=
         match l with
         | [] => inr []
         | [x] => element x
         | x :: rest =>
             match element x with
             | inl e => inl e
             | inr head =>
                 match join rest with
                 | inl e => inl e
                 | inr tail => inr (head ++ lit "," ++ tail)
                 end
             end
         end) items
  | VObj fields =>
      match lookup (lit "toString") fields with
      | Some _ => inl TypeErrorConvert
      | None => inr (lit "[object Object]")
      end
  end.

(** ** Requests and responses *)

Inductive request_body :=
| NoBody
| JsonText (v : jsval)                            (* [JSON.stringify(v)] *)
| FormData (entries : list (jsstring * jsstring)). (* a multipart form *)

(** The second argument of the global [fetch]. *)
Record request := Request {
  url : jsstring;
  method : option jsstring;
  credentials : option jsstring;
  headers : list (jsstring * jsstring);
  body : request_body
}.

Record response := Response {
  ok : bool;
  json : result jsval              (* what [res.json()] settles to *)
}.

(** What the promise of [fetch] settles to. *)
Definition fetch_outcome := result response.

(** ** Asynchronous handlers

    A handler is a finite tree of the effects it performs, in program
    order; [St] is the React state of the component that owns it. *)

Inductive console_line :=
| ConsoleLog (args : list jsval)
| ConsoleError (e : js_error).

Inductive Async (St A : Type) : Type :=
| Ret (a : A)
| Throw (e : js_error)
| Fetch (r : request) (k : fetch_outcome -> Async St A)
| Console (c : console_line) (k : Async St A)
| SetState (f : St -> St) (k : Async St A)
| PreventDefault (k : Async St A).

Arguments Ret {St A} a.
Arguments Throw {St A} e.
Arguments Fetch {St A} r k.
Arguments Console {St A} c k.
Arguments SetState {St A} f k.
Arguments PreventDefault {St A} k.

Fixpoint bind {St A B : Type} (p : Async St A) (f : A -> Async St B) : Async St B :=
  match p with
  | Ret a => f a
  | Throw e => Throw e
  | Fetch r k => Fetch r (fun o => bind (k o) f)
  | Console c k => Console c (bind k f)
  | SetState g k => SetState g (bind k f)
  | PreventDefault k => PreventDefault (bind k f)
  end.

(** [try { p } catch (err) { h err }] *)
Fixpoint try_catch {St A : Type} (p : Async St A) (h : js_error -> Async St A)
  : Async St A :=
  match p with
  | Ret a => Ret a
  | Throw e => h e
  | Fetch r k => Fetch r (fun o => try_catch (k o) h)
  | Console c k => Console c (try_catch k h)
  | SetState g k => SetState g (try_catch k h)
  | PreventDefault k => PreventDefault (try_catch k h)
  end.

(** [try { p } finally { fin }] *)
Fixpoint try_finally {St A : Type} (p : Async St A) (fin : Async St unit)
  : Async St A :=
  match p with
  | Ret a => bind fin (fun _ => Ret a)
  | Throw e => bind fin (fun _ => Throw e)
  | Fetch r k => Fetch r (fun o => try_finally (k o) fin)
  | Console c k => Console c (try_finally k fin)
  | SetState g k => SetState g (try_finally k fin)
  | PreventDefault k => PreventDefault (try_finally k fin)
  end.

(** Lift a synchronous result: an error is thrown. *)
Definition lift {St A : Type} (r : result A) : Async St A :=
  match r with inl e => Throw e | inr a => Ret a end.

(** What a run leaves behind. *)
Record World (St : Type) := MkWorld {
  state : St;                      (* the component's React state *)
  sent : list request;            (* the requests issued, oldest first *)
  console : list console_line;    (* the console, oldest first *)
  prevented : nat                 (* calls of [e.preventDefault()] *)
}.

(** The remote service: its answer to a request may depend on the requests
    it has seen before. *)
Definition Server := list request -> request -> fetch_outcome.

Fixpoint run {St A : Type} (server : Server) (p : Async St A) (w : World St)
  : result A * World St :=
  match p with
  | Ret a => (inr a, w)
  | Throw e => (inl e, w)
  | Fetch r k =>
      run server (k (server (sent w) r))
          (MkWorld (state w) (sent w ++ [r]) (console w) (prevented w))
  | Console c k =>
      run server k (MkWorld (state w) (sent w) (console w ++ [c]) (prevented w))
  | SetState f k =>
      run server k (MkWorld (f (state w)) (sent w) (console w) (prevented w))
  | PreventDefault k =>
      run server k (MkWorld (state w) (sent w) (console w) (S (prevented w)))
  end.

(** ** Form Validator *)

(** A validator answers [null] ([None]) or an error message. *)
Definition verdict := option jsstring.

(** A default parameter value applies when the argument is [undefined]. *)
Definition default_arg (a : option jsstring) (d : jsstring) : jsstring :=
match a with Some v => v | None => d end.

Module validator.

Definition required (value : jsstring) (fieldName : option jsstring) : verdict :=
  let fieldName := default_arg fieldName (lit "Field") in
  if (negb (truthy value) || eqb (trim value) (lit ""))%bool
  then Some (fieldName ++ lit " is required")
  else None.

Definition minLength `{Host} (value : jsstring) (min : Z) (fieldName : option jsstring)
  : verdict :=
  let fieldName := default_arg fieldName (lit "Field") in
  if (length value <? min)%Z
  then Some (fieldName ++ lit " must be at least " ++ NumberToString min
               ++ lit " characters")
  else None.

Definition maxLength `{Host} (value : jsstring) (max : Z) (fieldName : option jsstring)
  : verdict :=
  let fieldName := default_arg fieldName (lit "Field") in
  if (length value >? max)%Z
  then Some (fieldName ++ lit " must be less than " ++ NumberToString max
               ++ lit " characters")
  else None.

(** [/^[^\s@]+@[^\s@]+\.[^\s@]+$/] *)
Definition not_space_at (c : char16) : bool :=
  negb (is_whitespace c || N.eqb c 64)%bool.

Definition emailRegex : list Regex.atom :=
  [Regex.plus not_space_at; Regex.once (N.eqb 64);
   Regex.plus not_space_at; Regex.once (N.eqb 46);
   Regex.plus not_space_at].

Definition email (value : jsstring) : verdict :=
  if negb (Regex.test emailRegex value)
  then Some (lit "Please enter a valid email address")
  else None.

(** [/^[a-zA-Z0-9_]{3,20}$/] *)
Definition word_char (c : char16) : bool :=
  (in_range 97 122 c || in_range 65 90 c || in_range 48 57 c || N.eqb c 95)%bool.

Definition usernameRegex : list Regex.atom :=
  [Regex.between word_char 3 20].

Definition username (value : jsstring) : verdict :=
  if negb (Regex.test usernameRegex value)
  then Some (lit "Username must be 3-20 characters (letters, numbers, underscore only)")
  else None.

Definition password (value : jsstring) : verdict :=
  if (length value <? 6)%Z
  then Some (lit "Password must be at least 6 characters")
  else None.

End validator.

(** ** API Client *)

(** [import.meta.env.VITE_API_URL || 'http://localhost:3000'] *)
Definition API_BASE `{Host} : jsstring :=
  match VITE_API_URL with
  | Some u => if truthy u then u else lit "http://localhost:3000"
  | None => lit "http://localhost:3000"
  end.

(** The [options] argument of [api.fetch]. *)
Record options := Options {
  opt_method : option jsstring;
  opt_body : request_body;
  opt_headers : list (jsstring * jsstring)
}.

(** [{}] *)
Definition no_options : options := Options None NoBody [].

Module api.

(** The request [api.fetch] hands to the global [fetch]:
    [{...options, credentials: 'include', headers: {...}}]. *)
Definition fetch_request `{Host} (endpoint : jsstring) (opts : options) : request :=
  {| url := API_BASE ++ endpoint;
     method := opt_method opts;
     credentials := Some (lit "include");
     headers := spread [(lit "Content-Type", lit "application/json")]
                       (opt_headers opts);
     body := opt_body opts |}.

(** What [api.fetch] does once [await fetch(...)] has settled. *)
Definition fetch_result `{Host} (settled : fetch_outcome) : result jsval :=
  match settled with
  | inl e => inl e
  | inr res =>
      if negb (ok res) then
        let error :=
          match json res with
          | inr parsed => parsed
          | inl _ => VObj [(lit "error", str (lit "Request failed"))]
          end in
        match get_prop error (lit "error") with
        | inl e => inl e
        | inr field =>
            match ToString (val_or field (str (lit "Request failed"))) with
            | inl e => inl e
            | inr message => inl (Error message)
            end
        end
      else json res
  end.

Definition fetch `{Host} {St : Type} (endpoint : jsstring) (opts : options)
  : Async St jsval :=
  Fetch (fetch_request endpoint opts) (fun settled => lift (fetch_result settled)).

Definition upload_request `{Host} (endpoint : jsstring)
           (formData : list (jsstring * jsstring)) : request :=
  {| url := API_BASE ++ endpoint;
     method := Some (lit "POST");
     credentials := Some (lit "include");
     headers := [];
     body := FormData formData |}.

Definition upload_result (settled : fetch_outcome) : result jsval :=
  match settled with
  | inl e => inl e
  | inr res =>
      if negb (ok res) then inl (Error (lit "Upload failed"))
      else json res
  end.

Definition uploadFile `{Host} {St : Type} (endpoint : jsstring)
           (formData : list (jsstring * jsstring)) : Async St jsval :=
  Fetch (upload_request endpoint formData)
        (fun settled => lift (upload_result settled)).

End api.

(** ** Session Store *)

Module AuthProvider.

Record State := MkState {
  user : jsval;
  loading : bool
}.

(** [useState(null)], [useState(true)] *)
Definition initial : State := MkState null true.

Definition setUser (v : jsval) (s : State) : State := MkState v (loading s).
Definition setLoading (b : bool) (s : State) : State := MkState (user s) b.

Definition checkAuth `{Host} : Async State unit :=
  try_finally
    (try_catch
       (bind (api.fetch (lit "/auth/me") no_options) (fun data =>
        bind (lift (get_prop data (lit "user"))) (fun u =>
        SetState (setUser u) (Ret tt))))
       (fun _ => SetState (setUser null) (Ret tt)))
    (SetState (setLoading false) (Ret tt)).

Definition login `{Host} (username password : jsstring) : Async State jsval :=
  Console (ConsoleLog [str (lit "Attempting login with:");
                       VObj [(lit "username", str username);
                             (lit "password", str (lit "***"))]])
  (bind (api.fetch (lit "/auth/login")
           (Options (Some (lit "POST"))
                    (JsonText (VObj [(lit "username", str username);
                                     (lit "password", str password)]))
                    [])) (fun data =>
   Console (ConsoleLog [str (lit "Login successful:"); data])
   (bind (lift (get_prop data (lit "user"))) (fun u =>
    SetState (setUser u) (Ret data))))).

Definition signup `{Host} (username email password name : jsstring)
  : Async State jsval :=
  bind (api.fetch (lit "/auth/register")
          (Options (Some (lit "POST"))
                   (JsonText (VObj [(lit "username", str username);
                                    (lit "email", str email);
                                    (lit "password", str password);
                                    (lit "name", str name)]))
                   [])) (fun data =>
  bind (lift (get_prop data (lit "user"))) (fun u =>
  SetState (setUser u) (Ret data))).

Definition logout `{Host} : Async State unit :=
  bind (api.fetch (lit "/auth/logout") (Options (Some (lit "POST")) NoBody []))
       (fun _ => SetState (setUser null) (Ret tt)).

(** [AppContent] shows the sign-in page when [!user]. *)
Definition anonymous (s : State) : Prop := val_truthy (user s) = false.

End AuthProvider.

(** ** Sign-in page *)

(** [a || b] on validator answers: [null] and the empty string are falsy. *)
Definition verdict_truthy (v : verdict) : bool :=
  match v with Some m => truthy m | None => false end.

Definition verdict_or (a b : verdict) : verdict :=
  if verdict_truthy a then a else b.

Module SignInPage.

Record Form := MkForm {
  username : jsstring;
  email : jsstring;
  password : jsstring;
  name : jsstring
}.

(** The [errors] object: field name to message. *)
Definition Errors := list (jsstring * jsstring).

Record State := MkState {
  mode : jsstring;
  formData : Form;
  errors : Errors;
  apiError : jsstring;
  loading : bool
}.

(** [useState('login')], [useState({username: '', ...})], [useState({})],
    [useState('')], [useState(false)] *)
Definition initial : State :=
  MkState (lit "login") (MkForm [] [] [] []) [] [] false.

Definition setErrors (e : Errors) (s : State) : State :=
  MkState (mode s) (formData s) e (apiError s) (loading s).

(** [if (err) newErrors[field] = err] *)
Definition record_error (field : jsstring) (err : verdict) (newErrors : Errors)
  : Errors :=
  match err with
  | Some m => if truthy m then obj_set field m newErrors else newErrors
  | None => newErrors
  end.

(** The [newErrors] object that [validate] builds. *)
Definition newErrors (mode : jsstring) (formData : Form) : Errors :=
  let newErrors := [] in
  let usernameError :=
    verdict_or (validator.required (username formData) (Some (lit "Username")))
               (validator.username (username formData)) in
  let newErrors := record_error (lit "username") usernameError newErrors in
  let passwordError :=
    verdict_or (validator.required (password formData) (Some (lit "Password")))
               (validator.password (password formData)) in
  let newErrors := record_error (lit "password") passwordError newErrors in
  if eqb mode (lit "signup") then
    let nameError := validator.required (name formData) (Some (lit "Name")) in
    let newErrors := record_error (lit "name") nameError newErrors in
    let emailError :=
      verdict_or (validator.required (email formData) (Some (lit "Email")))
                 (validator.email (email formData)) in
    record_error (lit "email") emailError newErrors
  else newErrors.

Definition validate (s : State) : Async State bool :=
  let newErrors := newErrors (mode s) (formData s) in
  SetState (setErrors newErrors)
    (Ret (Nat.eqb (List.length (keys newErrors)) 0)).

End SignInPage.

(** ** Post *)

Module Post.

(** A like entry of a post, in either of the two shapes the server sends:
    [{ user: { id } }] or [{ userId }].  A field the entry lacks reads as
    [undefined]. *)
Record UserRef := MkUserRef { ref_id : prim }.

Record Like := MkLike {
  like_user : option UserRef;     (* [None] when [like.user] is null or undefined *)
  like_userId : prim
}.

Record Post := MkPost {
  post_id : prim;
  post_likes : option (list Like) (* [None] when [post.likes] is null or undefined *)
}.

(** The session identity, as [useAuth()] hands it out. *)
Record User := MkUser { user_id : prim }.

(** [like.user?.id] *)
Definition like_user_id (like : Like) : prim :=
  match like_user like with
  | Some u => ref_id u
  | None => PUndefined
  end.

(** [post.likes?.some(like => like.user?.id === user.id || like.userId === user.id)];
    [None] is [undefined]. *)
Definition isLiked (post : Post) (user : User) : option bool :=
  match post_likes post with
  | Some likes =>
      Some (existsb (fun like =>
                       strict_eq (like_user_id like) (user_id user)
                       || strict_eq (like_userId like) (user_id user))%bool
                    likes)
  | None => None
  end.

(** [if (isLiked)] *)
Definition taken (c : option bool) : bool :=
  match c with Some b => b | None => false end.

(** [onUpdate && onUpdate()]: the parent's refresh, when one was passed.
    The call is not awaited, so a rejection of the refresh does not reach
    the [catch] of the handler. *)
Definition call_onUpdate {St : Type} (onUpdate : option (Async St unit))
  : Async St unit :=
  match onUpdate with
  | Some refresh => try_catch refresh (fun _ => Ret tt)
  | None => Ret tt
  end.

Definition handleLike `{Host} {St : Type} (post : Post) (user : User)
           (onUpdate : option (Async St unit)) : Async St unit :=
  try_catch
    (bind (if taken (isLiked post user)
           then api.fetch (lit "/likes/" ++ prim_ToString (post_id post))
                          (Options (Some (lit "DELETE")) NoBody [])
           else api.fetch (lit "/likes/" ++ prim_ToString (post_id post))
                          (Options (Some (lit "POST")) NoBody []))
          (fun _ => call_onUpdate onUpdate))
    (fun err => Console (ConsoleError err) (Ret tt)).

End Post.

(** ** Feed page *)

Module FeedPage.

Record State := MkState {
  posts : jsval;
  newPost : jsstring;
  loading : bool
}.

(** [useState([])], [useState('')], [useState(false)] *)
Definition initial : State := MkState (VArr []) [] false.

Definition setPosts (v : jsval) (s : State) : State :=
  MkState v (newPost s) (loading s).
Definition setNewPost (t : jsstring) (s : State) : State :=
  MkState (posts s) t (loading s).
Definition setLoading (b : bool) (s : State) : State :=
  MkState (posts s) (newPost s) b.

Definition loadFeed `{Host} : Async State unit :=
  try_catch
    (bind (api.fetch (lit "/posts/feed") no_options) (fun data =>
     bind (lift (get_prop data (lit "posts"))) (fun ps =>
     SetState (setPosts ps) (Ret tt))))
    (fun err => Console (ConsoleError err) (Ret tt)).

(** The handler closes over the state [s] of the render it belongs to. *)
Definition handleCreatePost `{Host} (s : State) : Async State unit :=
  PreventDefault
    (if negb (truthy (trim (newPost s))) then Ret tt
     else
       SetState (setLoading true)
         (try_finally
            (try_catch
               (bind (api.fetch (lit "/posts")
                        (Options (Some (lit "POST"))
                                 (JsonText (VObj [(lit "content", str (newPost s))]))
                                 [])) (fun _ =>
                SetState (setNewPost (lit ""))
                         loadFeed))
               (fun err => Console (ConsoleError err) (Ret tt)))
            (SetState (setLoading false) (Ret tt)))).

End FeedPage.

(** ** A host for the examples *)

(** Integers print in decimal. *)
Definition decimal (z : Z) : jsstring :=
  lit (NilZero.string_of_int (Z.to_int z)).

(** [VITE_API_URL] is not set. *)
Definition local_host : Host :=
  {| NumberToString := decimal; VITE_API_URL := None |}.

(** The service is unreachable: every [fetch] rejects. *)
Definition offline : Server :=
  fun _ _ => inl (HostError (lit "TypeError") (lit "Failed to fetch")).

(** The service answers every request with a non-success status and the
    JSON body [{"error": message}]. *)
Definition refusing (message : jsstring) : Server :=
  fun _ _ => inr (Response false (inr (VObj [(lit "error", str message)]))).

(** The service answers every request with a success status and [body]. *)
Definition serving (body : jsval) : Server :=
  fun _ _ => inr (Response true (inr body)).

Definition fresh_world {St : Type} (s : St) : World St := MkWorld s [] [] 0.

(** ** Notions the statements use *)

(** The first error of a sequence of validator answers, [null] when there
    is none. *)
Fixpoint first_error (answers : list verdict) : verdict :=
  match answers with
  | [] => None
  | Some m :: _ => Some m
  | None :: rest => first_error rest
  end.

(** A string is blank when it is empty or made of whitespace only. *)
Definition blank (s : jsstring) : bool := forallb is_whitespace s.

(** A letter, a digit or the underscore, by code unit. *)
Definition letter_digit_underscore (c : char16) : Prop :=
  (97 <= c <= 122 \/ 65 <= c <= 90 \/ 48 <= c <= 57 \/ c = 95)%N.

(** An answer is well formed when it is [null] or a message that is not
    empty: what every validator of the program returns. *)
Definition well_formed (v : verdict) : Prop :=
  v = None \/ verdict_truthy v = true.

(** The requests of the session store. *)
Definition login_request `{Host} (username password : jsstring) : request :=
  api.fetch_request (lit "/auth/login")
    (Options (Some (lit "POST"))
             (JsonText (VObj [(lit "username", str username);
                              (lit "password", str password)]))
             []).

Definition logout_request `{Host} : request :=
  api.fetch_request (lit "/auth/logout") (Options (Some (lit "POST")) NoBody []).

(** The request of the like toggle for [post], with the given method. *)
Definition like_request `{Host} (post : Post.Post) (method : jsstring) : request :=
  api.fetch_request (lit "/likes/" ++ prim_ToString (Post.post_id post))
    (Options (Some method) NoBody []).

(** The request of the compose form. *)
Definition create_post_request `{Host} (content : jsstring) : request :=
  api.fetch_request (lit "/posts")
    (Options (Some (lit "POST"))
             (JsonText (VObj [(lit "content", str content)])) []).

(** Some entry of the post's like collection matches the viewer's id:
    through a nested user reference whose id is the viewer's, or through a
    direct user-id field that is the viewer's. *)
Definition liked_by (post : Post.Post) (viewer : Post.User) : Prop :=
  exists likes like,
    Post.post_likes post = Some likes
    /\ In like likes
    /\ ((exists ref, Post.like_user like = Some ref
                     /\ Post.ref_id ref = Post.user_id viewer)
        \/ Post.like_userId like = Post.user_id viewer).



(** [null] and [undefined], whose properties cannot be read. *)
Definition nullish (v : jsval) : bool :=
  match v with
  | VPrim PNull | VPrim PUndefined => true
  | _ => false
  end.

(** A signed-in user of the examples. *)
Definition alice : jsval :=
  VObj [(lit "id", VPrim (PNum 7)); (lit "username", str (lit "alice"))].

(** ** Handlers that span two components

    A handler that updates the state of its own component and, through a
    callback or the session context, the state of another one runs on the
    pair of the two states. *)

(** [p], run on a larger state that [widen] maps its updates to. *)
Fixpoint zoom {St Big A : Type} (widen : (St -> St) -> Big -> Big)
         (p : Async St A) : Async Big A :=
  match p with
  | Ret a => Ret a
  | Throw e => Throw e
  | Fetch r k => Fetch r (fun o => zoom widen (k o))
  | Console c k => Console c (zoom widen k)
  | SetState f k => SetState (widen f) (zoom widen k)
  | PreventDefault k => PreventDefault (zoom widen k)
  end.

Definition on_fst {A B : Type} (f : A -> A) (s : A * B) : A * B := (f (fst s), snd s).
Definition on_snd {A B : Type} (f : B -> B) (s : A * B) : A * B := (fst s, f (snd s)).

(** The text of [err.message] for the errors the engine raises itself. *)
Class ErrorText := {
  TypeErrorMessage : prim -> jsstring -> jsstring;
  ConvertErrorMessage : jsstring
}.

(** [err.message] *)
Definition message `{ErrorText} (e : js_error) : jsstring :=
  match e with
  | Error m => m
  | TypeErrorRead of_ key => TypeErrorMessage of_ key
  | TypeErrorConvert => ConvertErrorMessage
  | HostError _ m => m
  end.

(** [a || b] on primitives. *)
Definition prim_or (a b : prim) : prim := if prim_truthy a then a else b.

(** ** Top-level view *)

Inductive View :=
| LoadingView        (* [<div className="loading">] *)
| SignInView         (* [<SignInPage />] *)
| NavigationView.    (* [<Navigation />] *)

Definition AppContent (session : AuthProvider.State) : View :=
  if AuthProvider.loading session then LoadingView
  else if negb (val_truthy (AuthProvider.user session)) then SignInView
  else NavigationView.

(** ** Sign-in page: submit *)

Module SignInSubmit.

Definition setApiError (m : jsstring) (s : SignInPage.State) : SignInPage.State :=
  SignInPage.MkState (SignInPage.mode s) (SignInPage.formData s)
                     (SignInPage.errors s) m (SignInPage.loading s).

Definition setLoading (b : bool) (s : SignInPage.State) : SignInPage.State :=
  SignInPage.MkState (SignInPage.mode s) (SignInPage.formData s)
                     (SignInPage.errors s) (SignInPage.apiError s) b.

(** The state is the session store's and the page's; the handler closes
    over the page state [s] of its render. *)
Definition handleSubmit `{Host} `{ErrorText} (s : SignInPage.State)
  : Async (AuthProvider.State * SignInPage.State) unit :=
  let formData := SignInPage.formData s in
  PreventDefault
    (SetState (on_snd (setApiError (lit "")))
       (bind (zoom on_snd (SignInPage.validate s)) (fun valid =>
        if negb valid then Ret tt
        else
          SetState (on_snd (setLoading true))
            (try_finally
               (try_catch
                  (if eqb (SignInPage.mode s) (lit "login")
                   then bind (zoom on_fst
                                (AuthProvider.login (SignInPage.username formData)
                                                    (SignInPage.password formData)))
                             (fun _ => Ret tt)
                   else bind (zoom on_fst
                                (AuthProvider.signup (SignInPage.username formData)
                                                     (SignInPage.email formData)
                                                     (SignInPage.password formData)
                                                     (SignInPage.name formData)))
                             (fun _ => Ret tt))
                  (fun err => SetState (on_snd (setApiError (message err))) (Ret tt)))
               (SetState (on_snd (setLoading false)) (Ret tt)))))).

End SignInSubmit.

(** ** Post: comments *)

Module PostComment.

Record State := MkState {
  comment : jsstring;
  showComments : bool
}.

(** [useState('')], [useState(false)] *)
Definition initial : State := MkState [] false.

Definition setComment (t : jsstring) (s : State) : State :=
  MkState t (showComments s).

(** The state is the post's and, for the refresh, its parent's. *)
Definition handleComment `{Host} {St : Type} (s : State) (post : Post.Post)
           (onUpdate : option (Async St unit)) : Async (State * St) unit :=
  PreventDefault
    (if negb (truthy (trim (comment s))) then Ret tt
     else
       try_catch
         (bind (api.fetch (lit "/comments/" ++ prim_ToString (Post.post_id post))
                  (Options (Some (lit "POST"))
                           (JsonText (VObj [(lit "content", str (comment s))]))
                           [])) (fun _ =>
          SetState (on_fst (setComment (lit "")))
                   (zoom on_snd (Post.call_onUpdate onUpdate))))
         (fun err => Console (ConsoleError err) (Ret tt))).

End PostComment.

(** ** Profile page *)

Module ProfilePage.

(** The edit draft, [{ name, bio }]. *)
Record Draft := MkDraft {
  name : jsval;
  bio : jsval
}.

Record State := MkState {
  profile : jsval;
  editing : bool;
  formData : Draft
}.

(** [useState(null)], [useState(false)], [useState({ name: '', bio: '' })] *)
Definition initial : State := MkState null false (MkDraft (str []) (str [])).

Definition setProfile (v : jsval) (s : State) : State :=
  MkState v (editing s) (formData s).
Definition setEditing (b : bool) (s : State) : State :=
  MkState (profile s) b (formData s).
Definition setFormData (d : Draft) (s : State) : State :=
  MkState (profile s) (editing s) d.

(** [`/users/${userId || currentUser.id}`] *)
Definition profile_endpoint `{Host} (userId : prim) (currentUser : Post.User)
  : jsstring :=
  lit "/users/" ++ prim_ToString (prim_or userId (Post.user_id currentUser)).

Definition loadProfile `{Host} (userId : prim) (currentUser : Post.User)
  : Async State unit :=
  try_catch
    (bind (api.fetch (profile_endpoint userId currentUser) no_options) (fun data =>
     bind (lift (get_prop data (lit "user"))) (fun u =>
     SetState (setProfile u)
       (bind (lift (get_prop u (lit "name"))) (fun n =>
        bind (lift (get_prop u (lit "bio"))) (fun b =>
        SetState (setFormData (MkDraft (val_or n (str (lit "")))
                                       (val_or b (str (lit "")))))
                 (Ret tt)))))))
    (fun err => Console (ConsoleError err) (Ret tt)).

(** The state is the session store's (for [refreshUser]) and the page's. *)
Definition handleUpdateProfile `{Host} (s : State) (userId : prim)
           (currentUser : Post.User) : Async (AuthProvider.State * State) unit :=
  PreventDefault
    (try_catch
       (bind (api.fetch (lit "/users/me")
                (Options (Some (lit "PATCH"))
                         (JsonText (VObj [(lit "name", name (formData s));
                                          (lit "bio", bio (formData s))]))
                         [])) (fun _ =>
        SetState (on_snd (setEditing false))
          (bind (zoom on_snd (loadProfile userId currentUser)) (fun _ =>
           zoom on_fst AuthProvider.checkAuth))))
       (fun err => Console (ConsoleError err) (Ret tt))).

(** [file] is [e.target.files[0]]: the chosen file, or [undefined]. *)
Definition handlePhotoUpload `{Host} (file : option jsstring) (userId : prim)
           (currentUser : Post.User) : Async (AuthProvider.State * State) unit :=
  match file with
  | None => Ret tt
  | Some photo =>
      try_catch
        (bind (api.uploadFile (lit "/users/me/photo") [(lit "photo", photo)])
              (fun _ =>
         bind (zoom on_snd (loadProfile userId currentUser)) (fun _ =>
         zoom on_fst AuthProvider.checkAuth)))
        (fun err => Console (ConsoleError err) (Ret tt))
  end.

End ProfilePage.

(** ** Further notions the statements use *)

Definition me_request `{Host} : request :=
  api.fetch_request (lit "/auth/me") no_options.

Definition register_request `{Host} (username email password name : jsstring)
  : request :=
  api.fetch_request (lit "/auth/register")
    (Options (Some (lit "POST"))
             (JsonText (VObj [(lit "username", str username);
                              (lit "email", str email);
                              (lit "password", str password);
                              (lit "name", str name)]))
             []).

Definition feed_request `{Host} : request :=
  api.fetch_request (lit "/posts/feed") no_options.

Definition comment_request `{Host} (post : Post.Post) (content : jsstring) : request :=
  api.fetch_request (lit "/comments/" ++ prim_ToString (Post.post_id post))
    (Options (Some (lit "POST"))
             (JsonText (VObj [(lit "content", str content)])) []).

Definition profile_request `{Host} (userId : prim) (currentUser : Post.User)
  : request :=
  api.fetch_request (ProfilePage.profile_endpoint userId currentUser) no_options.

Definition update_profile_request `{Host} (draft : ProfilePage.Draft) : request :=
  api.fetch_request (lit "/users/me")
    (Options (Some (lit "PATCH"))
             (JsonText (VObj [(lit "name", ProfilePage.name draft);
                              (lit "bio", ProfilePage.bio draft)])) []).

Definition photo_request `{Host} (photo : jsstring) : request :=
  api.upload_request (lit "/users/me/photo") [(lit "photo", photo)].

(** The identity a response of the session endpoints carries: [data.user],
    or nothing when the read throws. *)
Definition identity_of (data : jsval) : result jsval := get_prop data (lit "user").

(** The world with another component state. *)
Definition with_state {St St' : Type} (s : St') (w : World St) : World St' :=
  MkWorld s (sent w) (console w) (prevented w).

(** [s] is made of characters of the class [c] only. *)
Definition all_in (c : char16 -> bool) (s : jsstring) : Prop :=
  forallb c s = true.

(** The posts the feed holds after a load that started from [w]. *)
Definition loaded_posts `{Host} (server : Server) (w : World FeedPage.State)
  : jsval :=
  match api.fetch_result (server (sent w) feed_request) with
  | inr data =>
      match get_prop data (lit "posts") with
      | inr ps => ps
      | inl _ => FeedPage.posts (state w)
      end
  | inl _ => FeedPage.posts (state w)
  end.

(** The error a load that started from [w] logs, if it logs one. *)
Definition load_error `{Host} (server : Server) (w : World FeedPage.State)
  : list console_line :=
  match api.fetch_result (server (sent w) feed_request) with
  | inr data =>
      match get_prop data (lit "posts") with
      | inr _ => []
      | inl e => [ConsoleError e]
      end
  | inl e => [ConsoleError e]
  end.

(** [n] repetitions are within the upper bound [hi]. *)
Definition within (hi : option nat) (n : nat) : Prop :=
  match hi with Some h => (n <= h)%nat | None => True end.

(** The strings [local @ domain . tld] with parts that are not empty and
    hold neither whitespace nor [@]. *)
Definition email_shaped (value : jsstring) : Prop :=
  exists local domain tld,
    value = local ++ lit "@" ++ domain ++ lit "." ++ tld
    /\ local <> [] /\ domain <> [] /\ tld <> []
    /\ all_in validator.not_space_at local
    /\ all_in validator.not_space_at domain
    /\ all_in validator.not_space_at tld.

(** An engine text for the examples. *)
Definition plain_errors : ErrorText :=
  {| TypeErrorMessage := fun _ key => lit "Cannot read properties (reading '" ++ key ++ lit "')";
     ConvertErrorMessage := lit "Cannot convert object to primitive value" |}.

(** * Properties *)

(** ** Strings *)

Lemma eqb_true_iff (a b : jsstring) : eqb a b = true <-> a = b.
Proof. unfold eqb. destruct (list_eq_dec N.eq_dec a b); split; congruence. Qed.

Lemma eqb_refl (a : jsstring) : eqb a a = true.
Proof. now apply eqb_true_iff. Qed.

Lemma truthy_app_r (a b : jsstring) : truthy b = true -> truthy (a ++ b) = true.
Proof. destruct a, b; simpl; auto. Qed.

Lemma blank_false_iff (s : jsstring) :
  blank s = false <-> exists c, In c s /\ is_whitespace c = false.
Proof.
  unfold blank. induction s as [|x s IH]; simpl.
  - split; [discriminate | intros (c & [] & _)].
  - rewrite andb_false_iff, IH. split.
    + intros [Hx | (c & Hin & Hc)]; [exists x | exists c]; auto.
    + intros (c & [-> | Hin] & Hc); [left | right; exists c]; auto.
Qed.

Lemma trim_start_blank (s : jsstring) : blank s = true -> trim_start s = [].
Proof.
  unfold blank. induction s as [|x s IH]; simpl; auto.
  intros H. apply andb_prop in H as [-> Hs]. auto.
Qed.

(** What [trim_start] leaves starts with a character that is no whitespace. *)
Lemma trim_start_head (s : jsstring) :
  blank s = false ->
  exists c r, trim_start s = c :: r /\ is_whitespace c = false.
Proof.
  unfold blank. induction s as [|x s IH]; simpl; [discriminate|].
  destruct (is_whitespace x) eqn:Hx; simpl; eauto.
Qed.

Lemma blank_rev (s : jsstring) : blank (rev s) = blank s.
Proof.
  unfold blank. induction s as [|x s IH]; simpl; auto.
  rewrite forallb_app, IH. simpl. rewrite andb_true_r. apply andb_comm.
Qed.

Lemma trim_nil_iff (s : jsstring) : trim s = [] <-> blank s = true.
Proof.
  unfold trim, trim_end. split.
  - intros H. destruct (blank s) eqn:Hb; auto.
    destruct (trim_start_head s Hb) as (c & r & Hs & Hc).
    rewrite Hs in H.
    assert (Hr : blank (rev (c :: r)) = false).
    { rewrite blank_rev. unfold blank. simpl. now rewrite Hc. }
    destruct (trim_start_head _ Hr) as (c' & r' & Hs' & _).
    rewrite Hs' in H. simpl in H.
    now destruct (rev r').
  - intros Hb. now rewrite (trim_start_blank s Hb).
Qed.

(** ** Form Validator *)

Lemma required_by_blank (value : jsstring) (fieldName : option jsstring) :
  validator.required value fieldName
  = if blank value
    then Some (default_arg fieldName (lit "Field") ++ lit " is required")
    else None.
Proof.
  unfold validator.required.
  destruct (blank value) eqn:Hb.
  - apply trim_nil_iff in Hb. rewrite Hb. simpl.
    now rewrite orb_true_r.
  - assert (Hv : truthy value = true).
    { destruct value; [discriminate | reflexivity]. }
    rewrite Hv. simpl.
    destruct (eqb (trim value) (lit "")) eqn:Ht; auto.
    apply eqb_true_iff in Ht. apply trim_nil_iff in Ht. congruence.
Qed.

(** C7. [validator.required] answers the "is required" message for the
    empty string and for every string made of whitespace only, and answers
    [null] for every other string, that is for every string that holds a
    character that is no whitespace. *)
Theorem required_rejects_exactly_blank :
  forall (value : jsstring) (fieldName : option jsstring),
    validator.required value fieldName
      = (if blank value
         then Some (default_arg fieldName (lit "Field") ++ lit " is required")
         else None)
    /\ blank [] = true
    /\ (blank value = false <-> exists c, In c value /\ is_whitespace c = false).
Proof.
  intros value fieldName.
  split; [apply required_by_blank | split; [reflexivity | apply blank_false_iff]].
Qed.

(** The bounded repetition of one class up to the end of the input accepts
    a string exactly by its length and the class of its characters. *)
Lemma repeat_to_end (c : char16 -> bool) (s : jsstring) :
  forall lo hi,
    Regex.repeat c lo (Some hi) (Regex.anchored []) s = true
    <-> (lo <= List.length s <= hi)%nat /\ forallb c s = true.
Proof.
  induction s as [|x s IH]; intros lo hi; simpl.
  - rewrite orb_false_r, andb_true_r, Nat.eqb_eq. intuition lia.
  - rewrite andb_false_r. simpl.
    rewrite !andb_true_iff, IH.
    destruct hi as [|hi]; simpl; [intuition (discriminate || lia)|].
    intuition lia.
Qed.

Lemma word_char_iff (c : char16) :
  validator.word_char c = true <-> letter_digit_underscore c.
Proof.
  unfold validator.word_char, letter_digit_underscore, in_range.
  rewrite !orb_true_iff, !andb_true_iff, !N.leb_le, N.eqb_eq. tauto.
Qed.

(** C8. [validator.username] answers [null] exactly for the strings of 3
    to 20 characters that are all letters, digits or underscores; it
    rejects "ab", accepts "valid_user1" and rejects "bad name!". *)
Theorem username_accepts_exactly :
  forall value : jsstring,
    (validator.username value = None
     <-> (3 <= List.length value <= 20)%nat
         /\ Forall letter_digit_underscore value)
    /\ validator.username (lit "ab") <> None
    /\ validator.username (lit "valid_user1") = None
    /\ validator.username (lit "bad name!") <> None.
Proof.
  intros value. split; [|repeat split; try reflexivity; discriminate].
  unfold validator.username, Regex.test, validator.usernameRegex.
  cbn [Regex.anchored Regex.between Regex.cls Regex.rmin Regex.rmax].
  destruct (Regex.repeat _ _ _ _ value) eqn:Hm; simpl.
  - apply repeat_to_end in Hm as [Hlen Hall].
    split; [intros _ | reflexivity]. split; auto.
    rewrite forallb_forall in Hall. apply Forall_forall.
    intros c Hc. apply word_char_iff; auto.
  - split; [discriminate|]. intros [Hlen Hall].
    assert (Ht : Regex.repeat validator.word_char 3 (Some 20)
                              (Regex.anchored []) value = true).
    { apply repeat_to_end. split; auto.
      apply forallb_forall. intros c Hc. apply word_char_iff.
      rewrite Forall_forall in Hall. auto. }
    discriminate (eq_trans (eq_sym Ht) Hm).
Qed.

(** C10. [validator.maxLength] answers [null] for a string whose length is
    exactly the bound: it rejects the strings strictly longer than the
    bound, and only those, with a message that reads "must be less than". *)
Theorem maxLength_accepts_bound :
  forall `{Host} (value : jsstring) (max : Z) (fieldName : option jsstring),
    validator.maxLength value (length value) fieldName = None
    /\ (validator.maxLength value max fieldName = None <-> (length value <= max)%Z)
    /\ (validator.maxLength value max fieldName <> None <-> (max < length value)%Z)
    /\ validator.maxLength value max fieldName
       = (if (max <? length value)%Z
          then Some (default_arg fieldName (lit "Field") ++ lit " must be less than "
                       ++ NumberToString max ++ lit " characters")
          else None).
Proof.
  intros H value max fieldName. unfold validator.maxLength.
  rewrite !Z.gtb_ltb, Z.ltb_irrefl.
  destruct (Z.ltb_spec max (length value)); repeat split;
    intros; try discriminate; try lia; try congruence.
Qed.

(** ** Sign-in page *)

Lemma required_well_formed value fieldName :
  well_formed (validator.required value (Some fieldName)).
Proof.
  rewrite required_by_blank. destruct (blank value); [right | now left].
  simpl. now apply truthy_app_r.
Qed.

Lemma username_well_formed value : well_formed (validator.username value).
Proof.
  unfold validator.username.
  destruct (negb _); [right; reflexivity | now left].
Qed.

Lemma password_well_formed value : well_formed (validator.password value).
Proof.
  unfold validator.password.
  destruct (_ <? _)%Z; [right; reflexivity | now left].
Qed.

Lemma email_well_formed value : well_formed (validator.email value).
Proof.
  unfold validator.email.
  destruct (negb _); [right; reflexivity | now left].
Qed.

Create HintDb validators.

#[local] Hint Resolve required_well_formed username_well_formed
  password_well_formed email_well_formed : validators.

Lemma verdict_or_first (a b : verdict) :
  well_formed a -> verdict_or a b = first_error [a; b].
Proof.
  unfold verdict_or. intros [-> | Ha]; [now destruct b|].
  rewrite Ha. destruct a; [reflexivity | discriminate].
Qed.

Lemma verdict_or_well_formed (a b : verdict) :
  well_formed a -> well_formed b -> well_formed (verdict_or a b).
Proof.
  unfold verdict_or. intros [-> | Ha] Hb; simpl; auto.
  rewrite Ha. now right.
Qed.

#[local] Hint Resolve verdict_or_well_formed : validators.

Lemma lookup_obj_set_same {V : Type} (k : jsstring) (v : V) fields :
  lookup k (obj_set k v fields) = Some v.
Proof.
  induction fields as [|[k' v'] fields IH]; simpl.
  - now rewrite eqb_refl.
  - destruct (eqb k k') eqn:E; simpl; rewrite ?eqb_refl, ?E; auto.
Qed.

Lemma lookup_obj_set_other {V : Type} (k k' : jsstring) (v : V) fields :
  eqb k k' = false -> lookup k (obj_set k' v fields) = lookup k fields.
Proof.
  intros E. induction fields as [|[k0 v0] fields IH]; simpl.
  - now rewrite E.
  - destruct (eqb k' k0) eqn:E0; simpl.
    + apply eqb_true_iff in E0. subst k0. now rewrite E.
    + now rewrite IH.
Qed.

Lemma lookup_record_same (k : jsstring) (e : verdict) errs :
  well_formed e ->
  lookup k (SignInPage.record_error k e errs)
  = match e with Some m => Some m | None => lookup k errs end.
Proof.
  unfold SignInPage.record_error. intros [-> | He]; auto.
  destruct e as [m|]; [|discriminate]. simpl in He. rewrite He.
  apply lookup_obj_set_same.
Qed.

Lemma lookup_record_other (k k' : jsstring) (e : verdict) errs :
  eqb k k' = false ->
  lookup k (SignInPage.record_error k' e errs) = lookup k errs.
Proof.
  unfold SignInPage.record_error. intros E.
  destruct e as [m|]; auto. destruct (truthy m); auto.
  now apply lookup_obj_set_other.
Qed.

Lemma first_error_single (a : verdict) : first_error [a] = a.
Proof. now destruct a. Qed.

Lemma first_error_pair (a b : verdict) :
  first_error [a; b] = match a with Some m => Some m | None => b end.
Proof. destruct a; [reflexivity | apply first_error_single]. Qed.

(** Rewrites a [lookup] through the assignments of [validate]. *)
Ltac lookup_errors :=
  repeat first
    [ rewrite lookup_record_same by auto with validators
    | rewrite lookup_record_other by reflexivity ];
  cbn [lookup];
  rewrite ?verdict_or_first, ?first_error_pair, ?first_error_single
    by auto with validators;
  repeat match goal with
         | |- context [match ?x with Some _ => _ | None => _ end] =>
             destruct x
         end;
  try reflexivity.

Section Validate.

Import SignInPage.

Variable formData : Form.

Lemma username_error mode :
  lookup (lit "username") (newErrors mode formData)
  = first_error [validator.required (username formData) (Some (lit "Username"));
                 validator.username (username formData)].
Proof.
  unfold newErrors. destruct (eqb mode (lit "signup")); lookup_errors.
Qed.

Lemma password_error mode :
  lookup (lit "password") (newErrors mode formData)
  = first_error [validator.required (password formData) (Some (lit "Password"));
                 validator.password (password formData)].
Proof.
  unfold newErrors. destruct (eqb mode (lit "signup")); lookup_errors.
Qed.

Lemma name_error_signup :
  lookup (lit "name") (newErrors (lit "signup") formData)
  = first_error [validator.required (name formData) (Some (lit "Name"))].
Proof.
  unfold newErrors. rewrite eqb_refl. lookup_errors.
Qed.

Lemma email_error_signup :
  lookup (lit "email") (newErrors (lit "signup") formData)
  = first_error [validator.required (email formData) (Some (lit "Email"));
                 validator.email (email formData)].
Proof.
  unfold newErrors. rewrite eqb_refl. lookup_errors.
Qed.

End Validate.

Lemma first_error_required_then (value fieldName : jsstring) (format : verdict) :
  first_error [validator.required value (Some fieldName); format]
  = if blank value then Some (fieldName ++ lit " is required") else format.
Proof.
  rewrite required_by_blank, first_error_pair. now destruct (blank value).
Qed.

(** In sign-in mode [validate] reads the username and the password only. *)
Lemma newErrors_login_ignores (formData : SignInPage.Form) (email name : jsstring) :
  SignInPage.newErrors (lit "login")
    (SignInPage.MkForm (SignInPage.username formData) email
                       (SignInPage.password formData) name)
  = SignInPage.newErrors (lit "login") formData.
Proof. reflexivity. Qed.

Lemma newErrors_login_fields (formData : SignInPage.Form) (field : jsstring) :
  eqb field (lit "username") = false ->
  eqb field (lit "password") = false ->
  lookup field (SignInPage.newErrors (lit "login") formData) = None.
Proof.
  intros Hu Hp. unfold SignInPage.newErrors.
  change (eqb (lit "login") (lit "signup")) with false. cbv iota.
  now rewrite !lookup_record_other by assumption.
Qed.

(** What [validate] does: it stores [newErrors] and answers whether it has
    no key. *)
Lemma run_validate (server : Server) (s : SignInPage.State)
      (w : World SignInPage.State) :
  run server (SignInPage.validate s) w
  = (inr (match SignInPage.newErrors (SignInPage.mode s) (SignInPage.formData s) with
          | [] => true
          | _ => false
          end),
     MkWorld (SignInPage.setErrors
                (SignInPage.newErrors (SignInPage.mode s) (SignInPage.formData s))
                (state w))
             (sent w) (console w) (prevented w)).
Proof.
  unfold SignInPage.validate. simpl.
  now destruct (SignInPage.newErrors _ _).
Qed.

(** ** Running handlers *)

Section Run.

Context {St : Type}.
Variable server : Server.

Lemma run_bind {A B : Type} (p : Async St A) (f : A -> Async St B) :
  forall w,
    run server (bind p f) w
    = match run server p w with
      | (inr a, w1) => run server (f a) w1
      | (inl e, w1) => (inl e, w1)
      end.
Proof.
  induction p as [a | e | r k IH | c k IH | g k IH | k IH]; intros w; simpl; auto.
Qed.

Lemma run_try_catch {A : Type} (p : Async St A) (h : js_error -> Async St A) :
  forall w,
    run server (try_catch p h) w
    = match run server p w with
      | (inr a, w1) => (inr a, w1)
      | (inl e, w1) => run server (h e) w1
      end.
Proof.
  induction p as [a | e | r k IH | c k IH | g k IH | k IH]; intros w; simpl; auto.
Qed.

Lemma run_try_finally {A : Type} (p : Async St A) (fin : Async St unit) :
  forall w,
    run server (try_finally p fin) w
    = match run server p w with
      | (r, w1) =>
          match run server fin w1 with
          | (inr _, w2) => (r, w2)
          | (inl e, w2) => (inl e, w2)
          end
      end.
Proof.
  induction p as [a | e | r k IH | c k IH | g k IH | k IH]; intros w; simpl; auto;
    rewrite run_bind; destruct (run server fin w) as [[e' | []] w1]; reflexivity.
Qed.

Lemma run_lift {A : Type} (r : result A) (w : World St) :
  run server (lift r) w = (r, w).
Proof. now destruct r. Qed.

(** A run only ever adds to the requests issued. *)
Lemma sent_extends {A : Type} (p : Async St A) :
  forall w, exists more, sent (snd (run server p w)) = sent w ++ more.
Proof.
  induction p as [a | e | r k IH | c k IH | g k IH | k IH]; intros w; simpl.
  - exists []. now rewrite app_nil_r.
  - exists []. now rewrite app_nil_r.
  - destruct (IH (server (sent w) r)
                 (MkWorld (state w) (sent w ++ [r]) (console w) (prevented w)))
      as [more Hmore].
    exists (r :: more). rewrite Hmore. simpl. now rewrite <- app_assoc.
  - apply (IH (MkWorld (state w) (sent w) (console w ++ [c]) (prevented w))).
  - apply (IH (MkWorld (g (state w)) (sent w) (console w) (prevented w))).
  - apply (IH (MkWorld (state w) (sent w) (console w) (S (prevented w)))).
Qed.

Context `{Host}.

(** [api.fetch] issues one request and settles by [api.fetch_result]. *)
Lemma run_api_fetch (endpoint : jsstring) (opts : options) (w : World St) :
  run server (api.fetch endpoint opts) w
  = (api.fetch_result (server (sent w) (api.fetch_request endpoint opts)),
     MkWorld (state w) (sent w ++ [api.fetch_request endpoint opts])
             (console w) (prevented w)).
Proof. unfold api.fetch. simpl. apply run_lift. Qed.

Lemma run_api_uploadFile (endpoint : jsstring) formData (w : World St) :
  run server (api.uploadFile endpoint formData) w
  = (api.upload_result (server (sent w) (api.upload_request endpoint formData)),
     MkWorld (state w) (sent w ++ [api.upload_request endpoint formData])
             (console w) (prevented w)).
Proof. unfold api.uploadFile. simpl. apply run_lift. Qed.

End Run.

(** ** API Client *)



(** A body that parses to [null] makes the read of [error.error] throw. *)
Lemma fetch_result_null_body `{Host} :
  api.fetch_result (inr (Response false (inr null)))
  = inl (TypeErrorRead PNull (lit "error")).
Proof. reflexivity. Qed.

(** An [error] field that is an object with a [toString] key of its own
    makes [new Error(...)] throw. *)
Lemma fetch_result_unprintable_error `{Host} :
  api.fetch_result
    (inr (Response false
            (inr (VObj [(lit "error",
                         VObj [(lit "toString", VPrim (PNum 0))])]))))
  = inl TypeErrorConvert.
Proof. reflexivity. Qed.




(** ** Session Store *)

Section Session.

Context `{Host}.
Variable server : Server.

(** [login] step by step: the console line, the request, and on success the
    second console line and the identity. *)
Lemma run_login (username password : jsstring) (w : World AuthProvider.State) :
  run server (AuthProvider.login username password) w
  = let attempt :=
      ConsoleLog [str (lit "Attempting login with:");
                  VObj [(lit "username", str username);
                        (lit "password", str (lit "***"))]] in
    let w1 := MkWorld (state w) (sent w ++ [login_request username password])
                      (console w ++ [attempt]) (prevented w) in
    match api.fetch_result (server (sent w) (login_request username password)) with
    | inl e => (inl e, w1)
    | inr data =>
        let w2 := MkWorld (state w1) (sent w1)
                          (console w1 ++ [ConsoleLog [str (lit "Login successful:"); data]])
                          (prevented w1) in
        match get_prop data (lit "user") with
        | inl e => (inl e, w2)
        | inr u =>
            (inr data,
             MkWorld (AuthProvider.setUser u (state w2)) (sent w2) (console w2)
                     (prevented w2))
        end
    end.
Proof.
  unfold AuthProvider.login. cbn [run]. rewrite run_bind, run_api_fetch.
  cbn [sent state console prevented]. fold (login_request username password).
  destruct (api.fetch_result _) as [e | data]; [reflexivity|].
  cbn [run]. rewrite run_bind, run_lift.
  destruct (get_prop data (lit "user")) as [e | u]; reflexivity.
Qed.

Lemma run_logout (w : World AuthProvider.State) :
  run server AuthProvider.logout w
  = let w1 := MkWorld (state w) (sent w ++ [logout_request]) (console w)
                      (prevented w) in
    match api.fetch_result (server (sent w) logout_request) with
    | inl e => (inl e, w1)
    | inr _ =>
        (inr tt,
         MkWorld (AuthProvider.setUser null (state w)) (sent w1) (console w1)
                 (prevented w1))
    end.
Proof.
  unfold AuthProvider.logout. rewrite run_bind, run_api_fetch.
  fold logout_request.
  destruct (api.fetch_result _) as [e | data]; reflexivity.
Qed.

(** C2. When the call of the login endpoint fails, [login] rejects with
    that error and the session state is what it was: an anonymous session
    stays anonymous, its identity unset. *)
Theorem login_failure_leaves_state :
  forall (username password : jsstring) (w : World AuthProvider.State)
         (e : js_error),
    api.fetch_result (server (sent w) (login_request username password)) = inl e ->
    let out := run server (AuthProvider.login username password) w in
    fst out = inl e
    /\ state (snd out) = state w
    /\ sent (snd out) = sent w ++ [login_request username password]
    /\ (AuthProvider.anonymous (state w) ->
        AuthProvider.anonymous (state (snd out))
        /\ AuthProvider.user (state (snd out)) = AuthProvider.user (state w)).
Proof.
  intros username password w e Hfail. cbv zeta.
  rewrite run_login, Hfail. cbn. auto.
Qed.

(** [login] never changes the session state when it rejects, whatever made
    it reject. *)
Lemma login_rejection_leaves_state (username password : jsstring)
      (w : World AuthProvider.State) (e : js_error) :
  fst (run server (AuthProvider.login username password) w) = inl e ->
  state (snd (run server (AuthProvider.login username password) w)) = state w.
Proof.
  rewrite run_login. cbv zeta.
  destruct (api.fetch_result _) as [e' | data]; [reflexivity|].
  destruct (get_prop data (lit "user")) as [e' | u]; [reflexivity | discriminate].
Qed.

(** C1, amended.  [logout] calls the logout endpoint once.  When the call
    succeeds the identity is set to [null] and the session is anonymous;
    when the call fails [logout] rejects with that error and the session
    state is what it was. *)
Theorem logout_clears_after_success :
  forall w : World AuthProvider.State,
    let out := run server AuthProvider.logout w in
    sent (snd out) = sent w ++ [logout_request]
    /\ match api.fetch_result (server (sent w) logout_request) with
       | inr _ =>
           fst out = inr tt
           /\ AuthProvider.user (state (snd out)) = null
           /\ AuthProvider.loading (state (snd out)) = AuthProvider.loading (state w)
           /\ AuthProvider.anonymous (state (snd out))
       | inl e =>
           fst out = inl e
           /\ state (snd out) = state w
       end.
Proof.
  intros w. cbv zeta. rewrite run_logout. cbv zeta.
  destruct (api.fetch_result _) as [e | data]; cbn; auto.
  repeat split.
Qed.

End Session.

Lemma login_failure_leaves_state_witness :
  let w := fresh_world AuthProvider.initial in
  let e := Error (lit "Invalid credentials") in
  let out := run (refusing (lit "Invalid credentials"))
                 (@AuthProvider.login local_host (lit "alice") (lit "wrong")) w in
  @api.fetch_result local_host
     (refusing (lit "Invalid credentials") (sent w)
        (@login_request local_host (lit "alice") (lit "wrong"))) = inl e
  /\ fst out = inl e
  /\ state (snd out) = AuthProvider.initial
  /\ AuthProvider.anonymous (state (snd out)).
Proof.
  cbv zeta.
  destruct (@login_failure_leaves_state local_host
              (refusing (lit "Invalid credentials")) (lit "alice") (lit "wrong")
              (fresh_world AuthProvider.initial)
              (Error (lit "Invalid credentials")) eq_refl)
    as (Hfst & Hstate & _ & Hanon).
  split; [reflexivity|]. split; [exact Hfst|]. split; [exact Hstate|].
  exact (proj1 (Hanon eq_refl)).
Defined.

(** C1, as stated, fails: with the service unreachable, [logout] rejects
    and a signed-in session keeps its identity. *)
Lemma logout_failure_keeps_identity :
  let out := run offline (@AuthProvider.logout local_host)
                 (fresh_world (AuthProvider.MkState alice false)) in
  fst out = inl (HostError (lit "TypeError") (lit "Failed to fetch"))
  /\ sent (snd out) = [@logout_request local_host]
  /\ AuthProvider.user (state (snd out)) = alice
  /\ ~ AuthProvider.anonymous (state (snd out)).
Proof.
  cbv zeta. repeat split. unfold AuthProvider.anonymous. cbn. discriminate.
Qed.

(** The same with an answer of the service: a non-success status rejects
    [logout] before [setUser(null)] is reached. *)
Lemma logout_refused_keeps_identity :
  let out := run (refusing (lit "Internal Server Error"))
                 (@AuthProvider.logout local_host)
                 (fresh_world (AuthProvider.MkState alice false)) in
  fst out = inl (Error (lit "Internal Server Error"))
  /\ AuthProvider.user (state (snd out)) = alice.
Proof. cbv zeta. split; reflexivity. Qed.

(** ** Post *)

Lemma strict_eq_true_iff (a b : prim) : strict_eq a b = true <-> a = b.
Proof. unfold strict_eq. destruct (prim_eq_dec a b); split; congruence. Qed.

(** With an id of the viewer that is not [undefined], [isLiked] is truthy
    exactly when a like entry carries that id, in either shape. *)
Lemma isLiked_iff (post : Post.Post) (viewer : Post.User) :
  Post.user_id viewer <> PUndefined ->
  Post.taken (Post.isLiked post viewer) = true <-> liked_by post viewer.
Proof.
  intros Hid. unfold Post.isLiked, liked_by, Post.taken.
  destruct (Post.post_likes post) as [likes|].
  - rewrite existsb_exists. split.
    + intros (like & Hin & Hm). exists likes, like. repeat split; auto.
      apply orb_true_iff in Hm as [Hm | Hm]; apply strict_eq_true_iff in Hm.
      * left. unfold Post.like_user_id in Hm.
        destruct (Post.like_user like) as [ref|]; [eauto | congruence].
      * now right.
    + intros (likes' & like & Heq & Hin & Hm). injection Heq as <-.
      exists like. split; auto. apply orb_true_iff.
      destruct Hm as [(ref & Hu & Hr) | Hm].
      * left. apply strict_eq_true_iff. unfold Post.like_user_id. now rewrite Hu.
      * right. now apply strict_eq_true_iff.
  - split; [discriminate|]. intros (likes & like & Heq & _). discriminate.
Qed.

(** Without that assumption the nested shape reads [undefined] from an
    entry that has no user reference and compares it equal to the id. *)
Example isLiked_viewer_without_id :
  Post.isLiked (Post.MkPost (PNum 1) (Some [Post.MkLike None (PNum 5)]))
               (Post.MkUser PUndefined)
  = Some true.
Proof. reflexivity. Qed.

Section Toggle.

Context `{Host} {St : Type}.
Variable server : Server.

(** The first effect of [handleLike] is its request. *)
Lemma handleLike_sent (post : Post.Post) (viewer : Post.User)
      (onUpdate : option (Async St unit)) (w : World St) :
  exists rest,
    sent (snd (run server (Post.handleLike post viewer onUpdate) w))
    = sent w
      ++ like_request post (if Post.taken (Post.isLiked post viewer)
                            then lit "DELETE" else lit "POST")
      :: rest.
Proof.
  unfold Post.handleLike. rewrite run_try_catch, run_bind.
  set (m := if Post.taken (Post.isLiked post viewer)
            then lit "DELETE" else lit "POST").
  assert (Hreq :
    run server
        (if Post.taken (Post.isLiked post viewer)
         then api.fetch (lit "/likes/" ++ prim_ToString (Post.post_id post))
                        (Options (Some (lit "DELETE")) NoBody [])
         else api.fetch (lit "/likes/" ++ prim_ToString (Post.post_id post))
                        (Options (Some (lit "POST")) NoBody [])) w
    = (api.fetch_result (server (sent w) (like_request post m)),
       MkWorld (state w) (sent w ++ [like_request post m]) (console w)
               (prevented w))).
  { subst m. destruct (Post.taken _); apply run_api_fetch. }
  rewrite Hreq. clear Hreq.
  destruct (api.fetch_result _) as [e | data].
  - exists []. reflexivity.
  - match goal with
    | |- context [run server ?p ?w1] =>
        destruct (sent_extends server p w1) as [more Hmore];
        destruct (run server p w1) as [[e | []] w2]
    end; exists more; cbn in *; rewrite Hmore, <- app_assoc; reflexivity.
Qed.

End Toggle.

(** ** Feed page *)

(** C9. Submitting the compose form with a draft that is empty or made of
    whitespace only is a no-op: the handler returns at once, no request is
    issued, and the feed state and the console are untouched (the default
    action of the submit event is prevented, as on every submit). *)
Theorem compose_blank_is_noop :
  forall `{Host} (server : Server) (s : FeedPage.State) (w : World FeedPage.State),
    blank (FeedPage.newPost s) = true ->
    run server (FeedPage.handleCreatePost s) w
    = (inr tt, MkWorld (state w) (sent w) (console w) (S (prevented w))).
Proof.
  intros H server s w Hblank. unfold FeedPage.handleCreatePost.
  apply trim_nil_iff in Hblank. rewrite Hblank. reflexivity.
Qed.

Lemma compose_blank_is_noop_witness :
  let s := FeedPage.MkState (VArr []) (lit "   ") false in
  blank (FeedPage.newPost s) = true
  /\ run (serving (VObj [])) (@FeedPage.handleCreatePost local_host s) (fresh_world s)
     = (inr tt, MkWorld s [] [] 1).
Proof.
  cbv zeta. split; [reflexivity|].
  exact (@compose_blank_is_noop local_host (serving (VObj []))
           (FeedPage.MkState (VArr []) (lit "   ") false)
           (fresh_world (FeedPage.MkState (VArr []) (lit "   ") false)) eq_refl).
Defined.

(** A draft with content does issue the create-post request. *)
Example compose_content_sends :
  let s := FeedPage.MkState (VArr []) (lit " hi ") false in
  sent (snd (run offline (@FeedPage.handleCreatePost local_host s) (fresh_world s)))
  = [@create_post_request local_host (lit " hi ")].
Proof. reflexivity. Qed.

(** * Further properties *)

(** ** Regular expressions *)

(** A quantified class followed by [k] accepts [s] exactly when [s] splits
    into a prefix of the class, of an allowed length, and a rest that [k]
    accepts. *)
Lemma repeat_splits (c : char16 -> bool) (k : jsstring -> bool) (s : jsstring) :
  forall lo hi,
    Regex.repeat c lo hi k s = true
    <-> exists p r,
        s = p ++ r /\ all_in c p /\ (lo <= List.length p)%nat
        /\ within hi (List.length p) /\ k r = true.
Proof.
  unfold all_in.
  induction s as [|x s IH]; intros lo hi; simpl.
  - rewrite orb_false_r, andb_true_iff, Nat.eqb_eq. split.
    + intros [-> Hk]. exists [], []. simpl.
      repeat split; auto. destruct hi; simpl; lia.
    + intros (p & r & Hs & _ & Hlo & _ & Hk).
      symmetry in Hs. apply app_eq_nil in Hs as [-> ->]. simpl in Hlo.
      split; [lia | assumption].
  - rewrite orb_true_iff, !andb_true_iff, Nat.eqb_eq, IH. split.
    + intros [[-> Hk] | [[Hx Hhi] (p & r & -> & Hp & Hlo & Hw & Hk)]].
      * exists [], (x :: s). simpl. repeat split; auto. destruct hi; simpl; lia.
      * exists (x :: p), r. simpl. rewrite Hx. repeat split; auto; [lia|].
        destruct hi as [[|h]|]; simpl in *; try discriminate; auto; lia.
    + intros ([|y p] & r & Hs & Hp & Hlo & Hw & Hk); simpl in *.
      * left. subst r. split; [lia | assumption].
      * right. injection Hs as <- ->. apply andb_prop in Hp as [Hy Hp].
        split; [split; [assumption|]|].
        -- destruct hi as [[|h]|]; simpl in *; auto; lia.
        -- exists p, r. repeat split; auto; [lia|].
           destruct hi as [[|h]|]; simpl in *; auto; lia.
Qed.

Lemma once_splits (a : char16) (k : jsstring -> bool) (s : jsstring) :
  Regex.repeat (N.eqb a) 1 (Some 1) k s = true
  <-> exists r, s = a :: r /\ k r = true.
Proof.
  rewrite repeat_splits. split.
  - intros (p & r & -> & Hp & Hlo & Hhi & Hk). simpl in Hhi.
    destruct p as [|y [|z p]]; simpl in *; try lia.
    unfold all_in in Hp. simpl in Hp. rewrite andb_true_r in Hp.
    apply N.eqb_eq in Hp. subst y. eauto.
  - intros (r & -> & Hk). exists [a], r. unfold all_in. simpl.
    rewrite N.eqb_refl. repeat split; auto.
Qed.

Lemma plus_splits (c : char16 -> bool) (k : jsstring -> bool) (s : jsstring) :
  Regex.repeat c 1 None k s = true
  <-> exists p r, s = p ++ r /\ p <> [] /\ all_in c p /\ k r = true.
Proof.
  rewrite repeat_splits. split.
  - intros (p & r & -> & Hp & Hlo & _ & Hk). exists p, r.
    repeat split; auto. intros ->. simpl in Hlo. lia.
  - intros (p & r & -> & Hne & Hp & Hk). exists p, r.
    repeat split; auto. destruct p; [contradiction | simpl; lia].
Qed.

Lemma plus_to_end (c : char16 -> bool) (s : jsstring) :
  Regex.repeat c 1 None (Regex.anchored []) s = true
  <-> s <> [] /\ all_in c s.
Proof.
  rewrite plus_splits. split.
  - intros (p & r & -> & Hne & Hp & Hk). destruct r; [|discriminate].
    rewrite app_nil_r. auto.
  - intros [Hne Hs]. exists s, []. rewrite app_nil_r. auto.
Qed.

(** ** Form Validator: email, password and length bounds *)

Lemma emailRegex_matches (value : jsstring) :
  Regex.test validator.emailRegex value = true <-> email_shaped value.
Proof.
  unfold Regex.test, validator.emailRegex, email_shaped.
  cbn [Regex.anchored Regex.plus Regex.once Regex.cls Regex.rmin Regex.rmax].
  rewrite plus_splits. split.
  - intros (a & r1 & -> & Ha & Hca & Hk).
    apply once_splits in Hk as (r2 & -> & Hk).
    apply plus_splits in Hk as (b & r3 & -> & Hb & Hcb & Hk).
    apply once_splits in Hk as (r4 & -> & Hk).
    apply plus_to_end in Hk as [Hc Hcc].
    exists a, b, r4. repeat split; auto.
  - intros (a & b & c & -> & Ha & Hb & Hc & Hca & Hcb & Hcc).
    exists a, (lit "@" ++ b ++ lit "." ++ c). repeat split; auto.
    apply once_splits. exists (b ++ lit "." ++ c). split; [reflexivity|].
    apply plus_splits. exists b, (lit "." ++ c). repeat split; auto.
    apply once_splits. exists c. split; [reflexivity|].
    apply plus_to_end. auto.
Qed.

Lemma email_none_iff (value : jsstring) :
  validator.email value = None <-> email_shaped value.
Proof.
  rewrite <- emailRegex_matches. unfold validator.email.
  destruct (Regex.test validator.emailRegex value); simpl;
    split; congruence.
Qed.

(** X1. [validator.email] accepts exactly the strings
    [local @ domain . tld] whose three parts are not empty and hold neither
    whitespace nor [@]; it accepts "a@b.com" and rejects "not-an-email". *)
Theorem email_accepts_exactly :
  forall value : jsstring,
    (validator.email value = None
     <-> exists local domain tld,
         value = local ++ lit "@" ++ domain ++ lit "." ++ tld
         /\ local <> [] /\ domain <> [] /\ tld <> []
         /\ all_in validator.not_space_at local
         /\ all_in validator.not_space_at domain
         /\ all_in validator.not_space_at tld)
    /\ validator.email (lit "a@b.com") = None
    /\ validator.email (lit "not-an-email") <> None.
Proof.
  intros value. split; [apply email_none_iff | split; [reflexivity | discriminate]].
Qed.

Lemma not_space_at_spec (c : char16) :
  validator.not_space_at c = true <-> is_whitespace c = false /\ c <> 64%N.
Proof.
  unfold validator.not_space_at.
  rewrite negb_true_iff, orb_false_iff, N.eqb_neq. tauto.
Qed.

Lemma count_at_none (s : jsstring) :
  all_in validator.not_space_at s -> count_occ N.eq_dec s 64%N = 0%nat.
Proof.
  unfold all_in. induction s as [|x s IH]; simpl; auto.
  intros H. apply andb_prop in H as [Hx Hs].
  apply not_space_at_spec in Hx as [_ Hx].
  destruct (N.eq_dec x 64); [contradiction | auto].
Qed.

(** X2. A string that [validator.email] accepts holds exactly one [@], at
    least one dot after it, no whitespace, and at least five characters;
    a blank string is never accepted. *)
Theorem email_accepted_shape :
  forall value : jsstring,
    validator.email value = None ->
    count_occ N.eq_dec value 64%N = 1%nat
    /\ (exists before after, value = before ++ lit "@" ++ after /\ In 46%N after)
    /\ (forall c, In c value -> is_whitespace c = false)
    /\ (5 <= List.length value)%nat
    /\ blank value = false.
Proof.
  intros value Hv.
  apply email_none_iff in Hv
    as (a & b & c & -> & Ha & Hb & Hc & Hca & Hcb & Hcc).
  assert (Hws : forall x, In x (a ++ lit "@" ++ b ++ lit "." ++ c) ->
                          is_whitespace x = false).
  { intros x Hx. unfold all_in in *. rewrite forallb_forall in Hca, Hcb, Hcc.
    rewrite !in_app_iff in Hx. simpl in Hx.
    destruct Hx as [Hx | [[<- | []] | [Hx | [[<- | []] | Hx]]]];
      try reflexivity;
      [apply Hca in Hx | apply Hcb in Hx | apply Hcc in Hx];
      now apply not_space_at_spec in Hx. }
  repeat apply conj.
  - rewrite !count_occ_app. unfold char16.
    rewrite (count_at_none Hca), (count_at_none Hcb), (count_at_none Hcc).
    reflexivity.
  - exists a, (b ++ lit "." ++ c). split; [reflexivity|].
    rewrite in_app_iff. right. now left.
  - exact Hws.
  - rewrite !length_app. simpl.
    destruct a, b, c; simpl; try contradiction; lia.
  - apply blank_false_iff. destruct a as [|x a]; [contradiction|].
    exists x. split; [now left|]. apply Hws. now left.
Qed.

Lemma email_accepted_shape_witness :
  validator.email (lit "newuser1@test.com") = None
  /\ count_occ N.eq_dec (lit "newuser1@test.com") 64%N = 1%nat
  /\ (5 <= List.length (lit "newuser1@test.com"))%nat.
Proof.
  destruct (email_accepted_shape (lit "newuser1@test.com") eq_refl)
    as (Hcount & _ & _ & Hlen & _).
  split; [reflexivity | split; assumption].
Defined.

(** ** Sign-in page: when [validate] accepts *)

Lemma obj_set_not_nil {V : Type} (k : jsstring) (v : V) fields :
  obj_set k v fields <> [].
Proof. destruct fields as [|[k' v'] fields]; simpl; [|destruct (eqb k k')]; discriminate. Qed.

Lemma record_error_nil (k : jsstring) (e : verdict) (errs : SignInPage.Errors) :
  well_formed e ->
  SignInPage.record_error k e errs = [] <-> e = None /\ errs = [].
Proof.
  unfold SignInPage.record_error. intros [-> | He]; [tauto|].
  destruct e as [m|]; [|discriminate]. simpl in He. rewrite He. split.
  - intros Hn. now apply obj_set_not_nil in Hn.
  - intros [Hn _]. discriminate.
Qed.

Lemma verdict_or_none (a b : verdict) :
  well_formed a -> verdict_or a b = None <-> a = None /\ b = None.
Proof.
  intros Ha. rewrite (verdict_or_first b Ha), first_error_pair.
  destruct a; split; try tauto; try (intros [? ?]; congruence); intros; discriminate.
Qed.

Lemma required_none_iff (value fieldName : jsstring) :
  validator.required value (Some fieldName) = None <-> blank value = false.
Proof.
  rewrite required_by_blank. destruct (blank value); split; congruence.
Qed.

Lemma username_none_iff (value : jsstring) :
  validator.username value = None
  <-> (3 <= List.length value <= 20)%nat /\ Forall letter_digit_underscore value.
Proof.
  assert (Hw : forallb validator.word_char value = true
               <-> Forall letter_digit_underscore value).
  { rewrite forallb_forall, Forall_forall.
    split; intros Hall c Hc; apply word_char_iff; auto. }
  rewrite <- Hw, <- repeat_to_end.
  unfold validator.username, Regex.test, validator.usernameRegex.
  cbn [Regex.anchored Regex.between Regex.cls Regex.rmin Regex.rmax].
  destruct (Regex.repeat _ _ _ _ value); simpl; split; congruence.
Qed.

Lemma password_none_iff (value : jsstring) :
  validator.password value = None <-> (6 <= List.length value)%nat.
Proof.
  unfold validator.password, length.
  destruct (Z.ltb_spec (Z.of_nat (List.length value)) 6); split;
    intros; try discriminate; try reflexivity; lia.
Qed.

(** A letter, a digit or the underscore is no whitespace. *)
Lemma word_char_not_whitespace (c : char16) :
  letter_digit_underscore c -> is_whitespace c = false.
Proof.
  unfold letter_digit_underscore, is_whitespace, in_range. intros Hc.
  repeat (apply orb_false_iff; split);
    try apply andb_false_iff; rewrite ?N.leb_gt, ?N.eqb_neq; lia.
Qed.

Lemma username_accepted_not_blank (value : jsstring) :
  validator.username value = None -> blank value = false.
Proof.
  intros Hv. apply username_none_iff in Hv as [Hlen Hall].
  apply blank_false_iff. destruct value as [|c value]; [simpl in Hlen; lia|].
  exists c. split; [now left|]. apply word_char_not_whitespace.
  now inversion Hall.
Qed.

Lemma email_accepted_not_blank (value : jsstring) :
  validator.email value = None -> blank value = false.
Proof.
  intros Hv. apply email_none_iff in Hv
    as (a & b & c & -> & Ha & _ & _ & Hca & _).
  apply blank_false_iff. destruct a as [|x a]; [contradiction|].
  exists x. split; [now left|].
  unfold all_in in Hca. simpl in Hca. apply andb_prop in Hca as [Hx _].
  now apply not_space_at_spec in Hx.
Qed.

Lemma newErrors_nil_iff (mode : jsstring) (formData : SignInPage.Form) :
  SignInPage.newErrors mode formData = []
  <-> validator.username (SignInPage.username formData) = None
      /\ blank (SignInPage.password formData) = false
      /\ validator.password (SignInPage.password formData) = None
      /\ (mode = lit "signup" ->
          blank (SignInPage.name formData) = false
          /\ validator.email (SignInPage.email formData) = None).
Proof.
  unfold SignInPage.newErrors.
  destruct (eqb mode (lit "signup")) eqn:Hmode.
  - apply eqb_true_iff in Hmode. subst mode.
    rewrite !record_error_nil by auto with validators.
    rewrite !verdict_or_none by auto with validators.
    rewrite !required_none_iff. split.
    + intros ([_ He] & Hn & [Hp Hpw] & [_ Hu] & _). auto.
    + intros (Hu & Hp & Hpw & Hs). destruct (Hs eq_refl) as [Hn He].
      repeat split; auto using username_accepted_not_blank, email_accepted_not_blank.
  - assert (Hne : mode <> lit "signup").
    { intros ->. now rewrite eqb_refl in Hmode. }
    rewrite !record_error_nil by auto with validators.
    rewrite !verdict_or_none by auto with validators.
    rewrite !required_none_iff. split.
    + intros ([Hp Hpw] & [_ Hu] & _). repeat split; auto; contradiction.
    + intros (Hu & Hp & Hpw & _).
      repeat split; auto using username_accepted_not_blank.
Qed.

(** X3. [validate] answers [true] exactly when the username is 3 to 20
    letters, digits or underscores, the password holds at least 6
    characters and is not blank, and, in sign-up mode, the name is not
    blank and the email has the shape [local @ domain . tld]; whatever it
    answers, it stores the errors it found and issues no request. *)
Theorem validate_accepts_exactly :
  forall (server : Server) (s : SignInPage.State) (w : World SignInPage.State),
    let out := run server (SignInPage.validate s) w in
    let formData := SignInPage.formData s in
    (fst out = inr true
     <-> ((3 <= List.length (SignInPage.username formData) <= 20)%nat
          /\ Forall letter_digit_underscore (SignInPage.username formData))
         /\ blank (SignInPage.password formData) = false
         /\ (6 <= List.length (SignInPage.password formData))%nat
         /\ (SignInPage.mode s = lit "signup" ->
             blank (SignInPage.name formData) = false
             /\ email_shaped (SignInPage.email formData)))
    /\ (fst out = inr true \/ fst out = inr false)
    /\ SignInPage.errors (state (snd out))
       = SignInPage.newErrors (SignInPage.mode s) formData
    /\ sent (snd out) = sent w.
Proof.
  intros server s w. cbv zeta. rewrite run_validate. cbn [fst snd state sent].
  split; [|split; [|split; reflexivity]].
  - rewrite <- username_none_iff, <- password_none_iff, <- email_none_iff.
    rewrite <- newErrors_nil_iff.
    destruct (SignInPage.newErrors _ _); split; intros E;
      solve [reflexivity | discriminate E].
  - destruct (SignInPage.newErrors _ _); auto.
Qed.

(** ** API Client: the request and the outcome *)

Lemma lookup_not_in {V : Type} (k : jsstring) (fields : list (jsstring * V)) :
  ~ In k (keys fields) -> lookup k fields = None.
Proof.
  induction fields as [|[k' v] fields IH]; simpl; auto.
  intros Hn. destruct (eqb k k') eqn:E.
  - apply eqb_true_iff in E. subst k'. exfalso. auto.
  - auto.
Qed.

(** A spread reads the later object first, the earlier one for the keys the
    later one lacks. *)
Lemma lookup_spread {V : Type} (k : jsstring) (extra : list (jsstring * V)) :
  NoDup (keys extra) ->
  forall base,
    lookup k (spread base extra)
    = match lookup k extra with
      | Some v => Some v
      | None => lookup k base
      end.
Proof.
  unfold spread. induction extra as [|[k' v'] extra IH]; intros Hnd base; simpl; auto.
  inversion Hnd as [|? ? Hnotin Hnd']; subst.
  rewrite (IH Hnd'). cbn [fst snd].
  destruct (eqb k k') eqn:E.
  - apply eqb_true_iff in E. subst k'.
    rewrite (lookup_not_in _ _ Hnotin). apply lookup_obj_set_same.
  - destruct (lookup k extra); auto. now apply lookup_obj_set_other.
Qed.

(** X4. Every request of [api.fetch] goes to [API_BASE ++ endpoint] with
    [credentials: 'include'], whatever the caller passes; its headers are
    the caller's, with [Content-Type: application/json] added when the
    caller names no [Content-Type] of its own. *)
Theorem fetch_request_headers :
  forall `{Host} (endpoint : jsstring) (opts : options) (header : jsstring),
    NoDup (keys (opt_headers opts)) ->
    let r := api.fetch_request endpoint opts in
    lookup header (headers r)
      = match lookup header (opt_headers opts) with
        | Some v => Some v
        | None => if eqb header (lit "Content-Type")
                  then Some (lit "application/json") else None
        end
    /\ credentials r = Some (lit "include")
    /\ url r = API_BASE ++ endpoint
    /\ method r = opt_method opts
    /\ body r = opt_body opts.
Proof.
  intros H endpoint opts header Hnd. cbv zeta.
  unfold api.fetch_request. cbn [headers credentials url method body].
  rewrite (lookup_spread _ _ Hnd). repeat apply conj; reflexivity.
Qed.

Lemma fetch_request_headers_witness :
  let opts := Options (Some (lit "POST")) NoBody
                      [(lit "Content-Type", lit "text/plain");
                       (lit "X-Trace", lit "1")] in
  NoDup (keys (opt_headers opts))
  /\ lookup (lit "Content-Type")
            (headers (@api.fetch_request local_host (lit "/posts") opts))
     = Some (lit "text/plain")
  /\ credentials (@api.fetch_request local_host (lit "/posts") opts)
     = Some (lit "include").
Proof.
  cbv zeta.
  assert (Hnd : NoDup (keys [(lit "Content-Type", lit "text/plain");
                             (lit "X-Trace", lit "1")])).
  { repeat constructor; simpl; intuition discriminate. }
  split; [exact Hnd|].
  destruct (@fetch_request_headers local_host (lit "/posts")
              (Options (Some (lit "POST")) NoBody
                       [(lit "Content-Type", lit "text/plain");
                        (lit "X-Trace", lit "1")])
              (lit "Content-Type") Hnd) as (Hh & Hc & _).
  split; [exact Hh | exact Hc].
Defined.

Lemma fetch_result_ok_iff `{Host} (settled : fetch_outcome) (v : jsval) :
  api.fetch_result settled = inr v
  <-> exists res, settled = inr res /\ ok res = true /\ json res = inr v.
Proof.
  unfold api.fetch_result. destruct settled as [e | res].
  - split; [discriminate | intros (res & Hs & _); discriminate].
  - destruct (ok res) eqn:Hok; simpl.
    + split; [eauto|]. intros (res' & Hs & _ & Hj). now injection Hs as <-.
    + split.
      * destruct (get_prop _ _); [discriminate|].
        destruct (ToString _); discriminate.
      * intros (res' & Hs & Hok' & _). injection Hs as <-. congruence.
Qed.

Lemma upload_result_ok_iff (settled : fetch_outcome) (v : jsval) :
  api.upload_result settled = inr v
  <-> exists res, settled = inr res /\ ok res = true /\ json res = inr v.
Proof.
  unfold api.upload_result. destruct settled as [e | res].
  - split; [discriminate | intros (res & Hs & _); discriminate].
  - destruct (ok res) eqn:Hok; simpl.
    + split; [eauto|]. intros (res' & Hs & _ & Hj). now injection Hs as <-.
    + split; [discriminate|].
      intros (res' & Hs & Hok' & _). injection Hs as <-. congruence.
Qed.

(** X5. [api.fetch] and [api.uploadFile] resolve with a value exactly when
    the service answers with a success status and a body that parses to
    that value; a rejection of [fetch] itself or of the parse is passed on
    as it is.  Either call issues exactly one request and touches neither
    the component state nor the console. *)
Theorem api_calls_resolve_exactly :
  forall `{Host} (St : Type) (server : Server) (w : World St)
         (endpoint : jsstring) (opts : options)
         (formData : list (jsstring * jsstring)) (v : jsval),
    let fetched := run server (api.fetch endpoint opts) w in
    let uploaded := run server (api.uploadFile endpoint formData) w in
    let fetch_req := api.fetch_request endpoint opts in
    let upload_req := api.upload_request endpoint formData in
    (fst fetched = inr v
     <-> exists res, server (sent w) fetch_req = inr res
                     /\ ok res = true /\ json res = inr v)
    /\ (fst uploaded = inr v
        <-> exists res, server (sent w) upload_req = inr res
                        /\ ok res = true /\ json res = inr v)
    /\ (forall e, server (sent w) fetch_req = inl e -> fst fetched = inl e)
    /\ (forall e, server (sent w) upload_req = inl e -> fst uploaded = inl e)
    /\ (forall res e, server (sent w) fetch_req = inr res ->
                      ok res = true -> json res = inl e -> fst fetched = inl e)
    /\ (forall res e, server (sent w) upload_req = inr res ->
                      ok res = true -> json res = inl e -> fst uploaded = inl e)
    /\ snd fetched = MkWorld (state w) (sent w ++ [fetch_req]) (console w) (prevented w)
    /\ snd uploaded = MkWorld (state w) (sent w ++ [upload_req]) (console w) (prevented w).
Proof.
  intros H St server w endpoint opts formData v. cbv zeta.
  rewrite run_api_fetch, run_api_uploadFile. cbn [fst snd].
  split; [apply fetch_result_ok_iff|].
  split; [apply upload_result_ok_iff|].
  split; [intros e ->; reflexivity|].
  split; [intros e ->; reflexivity|].
  split; [|split; [|split; reflexivity]].
  - intros res e -> Hok Hj. unfold api.fetch_result. now rewrite Hok, Hj.
  - intros res e -> Hok Hj. unfold api.upload_result. now rewrite Hok, Hj.
Qed.

(** ** Session Store: start-up, sign-up and the view shown *)

Section SessionMore.

Context `{Host}.
Variable server : Server.

Lemma run_checkAuth (w : World AuthProvider.State) :
  run server AuthProvider.checkAuth w
  = (inr tt,
     MkWorld
       (AuthProvider.MkState
          (match api.fetch_result (server (sent w) me_request) with
           | inr data =>
               match identity_of data with inr u => u | inl _ => null end
           | inl _ => null
           end)
          false)
       (sent w ++ [me_request]) (console w) (prevented w)).
Proof.
  unfold AuthProvider.checkAuth.
  rewrite run_try_finally, run_try_catch, run_bind, run_api_fetch.
  fold me_request. unfold identity_of.
  destruct (api.fetch_result _) as [e | data]; [reflexivity|].
  rewrite run_bind, run_lift.
  destruct (get_prop data (lit "user")) as [e | u]; reflexivity.
Qed.

Lemma run_signup (username email password name : jsstring)
      (w : World AuthProvider.State) :
  run server (AuthProvider.signup username email password name) w
  = let w1 := MkWorld (state w)
                      (sent w ++ [register_request username email password name])
                      (console w) (prevented w) in
    match api.fetch_result
            (server (sent w) (register_request username email password name)) with
    | inl e => (inl e, w1)
    | inr data =>
        match identity_of data with
        | inl e => (inl e, w1)
        | inr u =>
            (inr data,
             MkWorld (AuthProvider.setUser u (state w)) (sent w1) (console w1)
                     (prevented w1))
        end
    end.
Proof.
  unfold AuthProvider.signup. rewrite run_bind, run_api_fetch.
  fold (register_request username email password name). unfold identity_of.
  destruct (api.fetch_result _) as [e | data]; [reflexivity|].
  rewrite run_bind, run_lift.
  destruct (get_prop data (lit "user")) as [e | u]; reflexivity.
Qed.

(** X6. The start-up identity check never rejects and always clears the
    loading flag.  It issues the one request [GET /auth/me]; the identity
    becomes [data.user] when the call succeeds and [null] on any failure,
    also when the body is [null] and [data.user] cannot be read. *)
Theorem checkAuth_always_settles :
  forall w : World AuthProvider.State,
    let out := run server AuthProvider.checkAuth w in
    fst out = inr tt
    /\ AuthProvider.loading (state (snd out)) = false
    /\ sent (snd out) = sent w ++ [me_request]
    /\ console (snd out) = console w
    /\ AuthProvider.user (state (snd out))
       = match api.fetch_result (server (sent w) me_request) with
         | inr data => match identity_of data with inr u => u | inl _ => null end
         | inl _ => null
         end
    /\ (forall e, api.fetch_result (server (sent w) me_request) = inl e ->
                  AuthProvider.anonymous (state (snd out)))
    /\ (api.fetch_result (server (sent w) me_request) = inr null ->
        AuthProvider.anonymous (state (snd out))).
Proof.
  intros w. cbv zeta. rewrite run_checkAuth. cbn [fst snd state sent console].
  split; [reflexivity|]. split; [reflexivity|]. split; [reflexivity|].
  split; [reflexivity|]. split; [reflexivity|].
  split; [intros e -> | intros ->]; reflexivity.
Qed.

(** X7. [signup] behaves as [login] does: when the call of the registration
    endpoint fails it rejects with that error and leaves the session state
    as it was; when the call succeeds it sets the identity to [data.user]
    and resolves with the whole response.  It issues exactly one request,
    the POST of the four fields. *)
Theorem signup_outcomes :
  forall (username email password name : jsstring) (w : World AuthProvider.State),
    let out := run server (AuthProvider.signup username email password name) w in
    let req := register_request username email password name in
    sent (snd out) = sent w ++ [req]
    /\ console (snd out) = console w
    /\ (forall e, api.fetch_result (server (sent w) req) = inl e ->
                  fst out = inl e /\ state (snd out) = state w)
    /\ (forall data u,
          api.fetch_result (server (sent w) req) = inr data ->
          identity_of data = inr u ->
          fst out = inr data
          /\ AuthProvider.user (state (snd out)) = u
          /\ AuthProvider.loading (state (snd out))
             = AuthProvider.loading (state w))
    /\ (forall e, fst out = inl e -> state (snd out) = state w).
Proof.
  intros username email password name w. cbv zeta. rewrite run_signup. cbv zeta.
  destruct (api.fetch_result _) as [e | data];
    [|destruct (identity_of data) as [e | u] eqn:Hid]; cbn;
    repeat (intros || apply conj);
    repeat match goal with
           | E : inr _ = inr _ |- _ => injection E as E; subst
           end;
    try congruence; try reflexivity.
Qed.

(** X8. When the call of the login endpoint succeeds, [login] sets the
    identity to [data.user], keeps the loading flag, logs two console lines
    and resolves with the whole response; the password never reaches the
    console, which shows [***] in its place. *)
Theorem login_success_sets_identity :
  forall (username password : jsstring) (w : World AuthProvider.State)
         (data u : jsval),
    api.fetch_result (server (sent w) (login_request username password)) = inr data ->
    identity_of data = inr u ->
    let out := run server (AuthProvider.login username password) w in
    fst out = inr data
    /\ AuthProvider.user (state (snd out)) = u
    /\ AuthProvider.loading (state (snd out)) = AuthProvider.loading (state w)
    /\ sent (snd out) = sent w ++ [login_request username password]
    /\ console (snd out)
       = console w
         ++ [ConsoleLog [str (lit "Attempting login with:");
                         VObj [(lit "username", str username);
                               (lit "password", str (lit "***"))]];
             ConsoleLog [str (lit "Login successful:"); data]].
Proof.
  intros username password w data u Hd Hu. cbv zeta.
  unfold identity_of in Hu. rewrite run_login. cbv zeta. rewrite Hd, Hu. cbn.
  repeat apply conj; auto. now rewrite <- app_assoc.
Qed.

(** X9. The view [AppContent] shows follows the session: once the start-up
    check has run it is never the loading view, and it is the sign-in page
    exactly when the identity is falsy; after a [logout] that succeeds on a
    loaded session it is the sign-in page, and after one that fails it is
    the view shown before. *)
Theorem view_follows_session :
  forall w : World AuthProvider.State,
    let started := state (snd (run server AuthProvider.checkAuth w)) in
    let left := run server AuthProvider.logout w in
    AppContent started <> LoadingView
    /\ (AppContent started = SignInView <-> AuthProvider.anonymous started)
    /\ (AppContent started = NavigationView
        <-> val_truthy (AuthProvider.user started) = true)
    /\ (AppContent AuthProvider.initial = LoadingView)
    /\ (fst left = inr tt -> AuthProvider.loading (state w) = false ->
        AppContent (state (snd left)) = SignInView)
    /\ (forall e, fst left = inl e ->
                  AppContent (state (snd left)) = AppContent (state w)).
Proof.
  intros w. cbv zeta. rewrite run_checkAuth, run_logout. cbv zeta.
  cbn [fst snd state]. unfold AppContent, AuthProvider.anonymous.
  cbn [AuthProvider.loading AuthProvider.user].
  split; [|split; [|split; [|split; [reflexivity|split]]]].
  - destruct (val_truthy _); discriminate.
  - destruct (val_truthy _); simpl; split; congruence.
  - destruct (val_truthy _); simpl; split; congruence.
  - destruct (api.fetch_result _); cbn; [discriminate|].
    intros _ ->. reflexivity.
  - intros e. destruct (api.fetch_result _); cbn; [reflexivity | discriminate].
Qed.

End SessionMore.

Lemma login_success_sets_identity_witness :
  let server := serving (VObj [(lit "user", alice)]) in
  let w := fresh_world AuthProvider.initial in
  let out := run server (@AuthProvider.login local_host (lit "alice") (lit "secret1")) w in
  (@api.fetch_result local_host
      (server (sent w) (@login_request local_host (lit "alice") (lit "secret1")))
    = inr (VObj [(lit "user", alice)])
   /\ identity_of (VObj [(lit "user", alice)]) = inr alice)
  /\ fst out = inr (VObj [(lit "user", alice)])
  /\ AuthProvider.user (state (snd out)) = alice.
Proof.
  cbv zeta.
  destruct (@login_success_sets_identity local_host
              (serving (VObj [(lit "user", alice)])) (lit "alice") (lit "secret1")
              (fresh_world AuthProvider.initial)
              (VObj [(lit "user", alice)]) alice eq_refl eq_refl)
    as (Hfst & Huser & _).
  split; [split; reflexivity|]. split; [exact Hfst | exact Huser].
Defined.

(** ** Handlers on a pair of states *)

Section Zoom.

Context {A B R : Type}.
Variable server : Server.

(** A handler of the first component, run on the pair, does what it does
    alone and leaves the second component as it is. *)
Lemma run_zoom_fst (p : Async A R) :
  forall w : World (A * B),
    run server (zoom on_fst p) w
    = (fst (run server p (with_state (fst (state w)) w)),
       with_state (state (snd (run server p (with_state (fst (state w)) w))),
                   snd (state w))
                  (snd (run server p (with_state (fst (state w)) w)))).
Proof.
  induction p as [a | e | r k IH | c k IH | g k IH | k IH];
    intros [[x y] rs cs n]; cbn [zoom run]; try rewrite IH; reflexivity.
Qed.

Lemma run_zoom_snd (p : Async B R) :
  forall w : World (A * B),
    run server (zoom on_snd p) w
    = (fst (run server p (with_state (snd (state w)) w)),
       with_state (fst (state w),
                   state (snd (run server p (with_state (snd (state w)) w))))
                  (snd (run server p (with_state (snd (state w)) w)))).
Proof.
  induction p as [a | e | r k IH | c k IH | g k IH | k IH];
    intros [[x y] rs cs n]; cbn [zoom run]; try rewrite IH; reflexivity.
Qed.

End Zoom.

Lemma trim_truthy (s : jsstring) : blank s = false -> truthy (trim s) = true.
Proof.
  intros Hb. destruct (trim s) eqn:Ht; [|reflexivity].
  apply trim_nil_iff in Ht. congruence.
Qed.

(** ** Post: like and comment *)

Section PostHandlers.

Context `{Host} {St : Type}.
Variable server : Server.

(** The refresh is fired and forgotten: the handler goes on normally. *)
Lemma call_onUpdate_settles (onUpdate : option (Async St unit)) (w : World St) :
  fst (run server (Post.call_onUpdate onUpdate) w) = inr tt.
Proof.
  destruct onUpdate as [refresh|]; [|reflexivity].
  unfold Post.call_onUpdate. rewrite run_try_catch.
  destruct (run server refresh w) as [[e | []] w1]; reflexivity.
Qed.

Lemma call_onUpdate_world (refresh : Async St unit) (w : World St) :
  snd (run server (Post.call_onUpdate (Some refresh)) w) = snd (run server refresh w).
Proof.
  unfold Post.call_onUpdate. rewrite run_try_catch.
  destruct (run server refresh w) as [[e | []] w1]; reflexivity.
Qed.

Lemma run_handleLike (post : Post.Post) (viewer : Post.User)
      (onUpdate : option (Async St unit)) (w : World St) :
  run server (Post.handleLike post viewer onUpdate) w
  = let req := like_request post (if Post.taken (Post.isLiked post viewer)
                                  then lit "DELETE" else lit "POST") in
    let w1 := MkWorld (state w) (sent w ++ [req]) (console w) (prevented w) in
    match api.fetch_result (server (sent w) req) with
    | inl e =>
        (inr tt, MkWorld (state w) (sent w ++ [req])
                         (console w ++ [ConsoleError e]) (prevented w))
    | inr _ => (inr tt, snd (run server (Post.call_onUpdate onUpdate) w1))
    end.
Proof.
  unfold Post.handleLike. rewrite run_try_catch, run_bind. cbv zeta.
  destruct (Post.taken (Post.isLiked post viewer));
    rewrite run_api_fetch; unfold like_request;
    (destruct (api.fetch_result _) as [e | data]; [reflexivity|]);
    match goal with
    | |- context [run server (Post.call_onUpdate onUpdate) ?w1] =>
        pose proof (call_onUpdate_settles onUpdate w1) as Hs;
        destruct (run server (Post.call_onUpdate onUpdate) w1) as [[e | []] w2];
        [discriminate Hs | reflexivity]
    end.
Qed.

(** X10. [handleLike] never rejects.  When its request fails it logs the
    error, leaves the state as it was and does not ask the parent to
    refresh; when the request succeeds it asks the parent to refresh, if a
    refresh was passed, and does nothing else. *)
Theorem handleLike_outcomes :
  forall (post : Post.Post) (viewer : Post.User)
         (onUpdate : option (Async St unit)) (w : World St),
    let out := run server (Post.handleLike post viewer onUpdate) w in
    let req := like_request post (if Post.taken (Post.isLiked post viewer)
                                  then lit "DELETE" else lit "POST") in
    let w1 := MkWorld (state w) (sent w ++ [req]) (console w) (prevented w) in
    fst out = inr tt
    /\ (forall e, api.fetch_result (server (sent w) req) = inl e ->
                  snd out = MkWorld (state w) (sent w ++ [req])
                                    (console w ++ [ConsoleError e]) (prevented w))
    /\ (forall data refresh,
          api.fetch_result (server (sent w) req) = inr data ->
          onUpdate = Some refresh ->
          snd out = snd (run server refresh w1))
    /\ (forall data,
          api.fetch_result (server (sent w) req) = inr data ->
          onUpdate = None ->
          snd out = w1).
Proof.
  intros post viewer onUpdate w. cbv zeta. rewrite run_handleLike. cbv zeta.
  destruct (api.fetch_result _) as [e | data]; cbn [fst snd].
  - split; [reflexivity|]. split; [|split]; intros; try discriminate.
    congruence.
  - split; [reflexivity|]. split; [|split]; intros; try discriminate; subst.
    + apply call_onUpdate_world.
    + reflexivity.
Qed.

Lemma run_handleComment (s : PostComment.State) (post : Post.Post)
      (onUpdate : option (Async St unit)) (w : World (PostComment.State * St)) :
  blank (PostComment.comment s) = false ->
  run server (PostComment.handleComment s post onUpdate) w
  = let req := comment_request post (PostComment.comment s) in
    match api.fetch_result (server (sent w) req) with
    | inl e =>
        (inr tt, MkWorld (state w) (sent w ++ [req])
                         (console w ++ [ConsoleError e]) (S (prevented w)))
    | inr _ =>
        let after :=
          snd (run server (Post.call_onUpdate onUpdate)
                   (MkWorld (snd (state w)) (sent w ++ [req]) (console w)
                            (S (prevented w)))) in
        (inr tt,
         with_state (PostComment.setComment (lit "") (fst (state w)), state after)
                    after)
    end.
Proof.
  intros Hb. unfold PostComment.handleComment. cbn [run].
  rewrite (trim_truthy _ Hb). cbn [negb].
  rewrite run_try_catch, run_bind, run_api_fetch. cbv zeta.
  fold (comment_request post (PostComment.comment s)).
  cbn [state sent console prevented].
  destruct (api.fetch_result _) as [e | data]; [reflexivity|].
  cbn [run]. rewrite run_zoom_snd. unfold with_state, on_fst.
  cbn [state sent console prevented fst snd].
  match goal with
  | |- context [run server (Post.call_onUpdate onUpdate) ?w1] =>
      pose proof (call_onUpdate_settles onUpdate w1) as Hs;
      destruct (run server (Post.call_onUpdate onUpdate) w1) as [[e | []] w2];
      [discriminate Hs | reflexivity]
  end.
Qed.

(** X11. Submitting a comment that is empty or made of whitespace only is
    a no-op: no request, no state update, no console line; only the
    default action of the submit event is prevented. *)
Theorem comment_blank_is_noop :
  forall (s : PostComment.State) (post : Post.Post)
         (onUpdate : option (Async St unit)) (w : World (PostComment.State * St)),
    blank (PostComment.comment s) = true ->
    run server (PostComment.handleComment s post onUpdate) w
    = (inr tt, MkWorld (state w) (sent w) (console w) (S (prevented w))).
Proof.
  intros s post onUpdate w Hb. unfold PostComment.handleComment.
  apply trim_nil_iff in Hb. rewrite Hb. reflexivity.
Qed.

(** X12. A comment with content is posted as typed, surrounding whitespace
    included, and [handleComment] never rejects.  When the request fails
    the draft stays in the input and the error is logged, with no refresh;
    when it succeeds the input is cleared and the parent is asked to
    refresh, the parent's state being what the refresh leaves. *)
Theorem comment_outcomes :
  forall (s : PostComment.State) (post : Post.Post)
         (onUpdate : option (Async St unit)) (w : World (PostComment.State * St)),
    blank (PostComment.comment s) = false ->
    let out := run server (PostComment.handleComment s post onUpdate) w in
    let req := comment_request post (PostComment.comment s) in
    let refreshed :=
      snd (run server (Post.call_onUpdate onUpdate)
               (MkWorld (snd (state w)) (sent w ++ [req]) (console w)
                        (S (prevented w)))) in
    fst out = inr tt
    /\ (exists rest, sent (snd out) = sent w ++ req :: rest)
    /\ (forall e, api.fetch_result (server (sent w) req) = inl e ->
                  state (snd out) = state w
                  /\ sent (snd out) = sent w ++ [req]
                  /\ console (snd out) = console w ++ [ConsoleError e])
    /\ (forall data, api.fetch_result (server (sent w) req) = inr data ->
                     PostComment.comment (fst (state (snd out))) = lit ""
                     /\ PostComment.showComments (fst (state (snd out)))
                        = PostComment.showComments (fst (state w))
                     /\ snd (state (snd out)) = state refreshed
                     /\ sent (snd out) = sent refreshed
                     /\ console (snd out) = console refreshed).
Proof.
  intros s post onUpdate w Hb. cbv zeta. rewrite (run_handleComment _ _ _ _ Hb).
  cbv zeta.
  destruct (api.fetch_result _) as [e | data]; cbn [fst snd].
  - split; [reflexivity|]. split; [exists []; reflexivity|].
    split; intros; try discriminate. injection H0 as <-. auto.
  - split; [reflexivity|]. split.
    + match goal with
      | |- context [run server ?p ?w1] =>
          destruct (sent_extends server p w1) as [more Hmore]
      end.
      exists more. cbn in *. rewrite Hmore, <- app_assoc. reflexivity.
    + split; intros; try discriminate. cbn. auto.
Qed.

End PostHandlers.

(** ** Feed page: loading and composing *)

Section Feed.

Context `{Host}.
Variable server : Server.

Lemma run_loadFeed (w : World FeedPage.State) :
  run server FeedPage.loadFeed w
  = (inr tt,
     MkWorld (FeedPage.setPosts (loaded_posts server w) (state w))
             (sent w ++ [feed_request])
             (console w ++ load_error server w) (prevented w)).
Proof.
  unfold FeedPage.loadFeed, loaded_posts, load_error.
  rewrite run_try_catch, run_bind, run_api_fetch. fold feed_request.
  destruct w as [[ps np ld] rs cs n]. cbn [state sent console prevented].
  destruct (api.fetch_result _) as [e | data]; [reflexivity|].
  rewrite run_bind, run_lift.
  destruct (get_prop data (lit "posts")) as [e | ps']; cbn;
    rewrite ?app_nil_r; reflexivity.
Qed.

(** X13. [loadFeed] never rejects and issues the one request
    [GET /posts/feed].  On success the feed becomes [data.posts] as it is,
    [undefined] when the response names no posts; when the call fails, or
    the body is [null], the feed state is what it was and the error goes
    to the console.  The draft and the loading flag are never touched. *)
Theorem loadFeed_outcomes :
  forall w : World FeedPage.State,
    let out := run server FeedPage.loadFeed w in
    fst out = inr tt
    /\ sent (snd out) = sent w ++ [feed_request]
    /\ FeedPage.newPost (state (snd out)) = FeedPage.newPost (state w)
    /\ FeedPage.loading (state (snd out)) = FeedPage.loading (state w)
    /\ (forall data,
          api.fetch_result (server (sent w) feed_request) = inr data ->
          nullish data = false ->
          FeedPage.posts (state (snd out))
            = match data with
              | VObj fields =>
                  match lookup (lit "posts") fields with
                  | Some ps => ps
                  | None => undefined
                  end
              | _ => undefined
              end
          /\ console (snd out) = console w)
    /\ (forall e,
          api.fetch_result (server (sent w) feed_request) = inl e ->
          state (snd out) = state w
          /\ console (snd out) = console w ++ [ConsoleError e])
    /\ (api.fetch_result (server (sent w) feed_request) = inr null ->
        state (snd out) = state w
        /\ console (snd out)
           = console w ++ [ConsoleError (TypeErrorRead PNull (lit "posts"))]).
Proof.
  intros w. cbv zeta. rewrite run_loadFeed. unfold loaded_posts, load_error.
  destruct w as [[ps np ld] rs cs n]. cbn [fst snd state sent console prevented].
  split; [reflexivity|]. split; [reflexivity|].
  split; [reflexivity|]. split; [reflexivity|].
  split; [|split].
  - intros data -> Hn.
    destruct data as [[]| |fields]; try discriminate; unfold get_prop;
      try destruct (lookup (lit "posts") fields);
      rewrite app_nil_r; auto.
  - intros e ->. auto.
  - intros ->. auto.
Qed.

Lemma run_handleCreatePost (s : FeedPage.State) (w : World FeedPage.State) :
  blank (FeedPage.newPost s) = false ->
  run server (FeedPage.handleCreatePost s) w
  = let req := create_post_request (FeedPage.newPost s) in
    match api.fetch_result (server (sent w) req) with
    | inl e =>
        (inr tt,
         MkWorld (FeedPage.setLoading false (state w)) (sent w ++ [req])
                 (console w ++ [ConsoleError e]) (S (prevented w)))
    | inr _ =>
        let w1 := MkWorld (FeedPage.setNewPost (lit "")
                             (FeedPage.setLoading true (state w)))
                          (sent w ++ [req]) (console w) (S (prevented w)) in
        (inr tt,
         MkWorld (FeedPage.setLoading false
                    (FeedPage.setPosts (loaded_posts server w1) (state w1)))
                 (sent w1 ++ [feed_request])
                 (console w1 ++ load_error server w1) (prevented w1))
    end.
Proof.
  intros Hb. unfold FeedPage.handleCreatePost. cbn [run].
  rewrite (trim_truthy _ Hb). cbn [negb run].
  rewrite run_try_finally, run_try_catch, run_bind, run_api_fetch. cbv zeta.
  fold (create_post_request (FeedPage.newPost s)).
  cbn [state sent console prevented].
  destruct (api.fetch_result _) as [e | data]; [reflexivity|].
  cbn [run]. rewrite run_loadFeed. reflexivity.
Qed.

(** X14. Composing a post with content never rejects and always ends with
    the loading flag cleared.  The draft is sent as typed.  When the
    request fails the draft and the feed are kept, the error is logged and
    the feed is not loaded again; when it succeeds the draft is cleared and
    the whole feed is loaded again, by a second request. *)
Theorem compose_outcomes :
  forall (s : FeedPage.State) (w : World FeedPage.State),
    blank (FeedPage.newPost s) = false ->
    let out := run server (FeedPage.handleCreatePost s) w in
    let req := create_post_request (FeedPage.newPost s) in
    fst out = inr tt
    /\ FeedPage.loading (state (snd out)) = false
    /\ (forall e, api.fetch_result (server (sent w) req) = inl e ->
                  sent (snd out) = sent w ++ [req]
                  /\ FeedPage.newPost (state (snd out)) = FeedPage.newPost (state w)
                  /\ FeedPage.posts (state (snd out)) = FeedPage.posts (state w)
                  /\ console (snd out) = console w ++ [ConsoleError e])
    /\ (forall data, api.fetch_result (server (sent w) req) = inr data ->
                     sent (snd out) = sent w ++ [req; feed_request]
                     /\ FeedPage.newPost (state (snd out)) = lit ""
                     /\ (forall feed ps,
                           api.fetch_result (server (sent w ++ [req]) feed_request)
                           = inr feed ->
                           get_prop feed (lit "posts") = inr ps ->
                           FeedPage.posts (state (snd out)) = ps)
                     /\ (forall e,
                           api.fetch_result (server (sent w ++ [req]) feed_request)
                           = inl e ->
                           FeedPage.posts (state (snd out)) = FeedPage.posts (state w))).
Proof.
  intros s w Hb. cbv zeta. rewrite (run_handleCreatePost _ _ Hb). cbv zeta.
  destruct (api.fetch_result (server (sent w) _)) as [e | data];
    cbn [fst snd state sent console prevented].
  - split; [reflexivity|]. split; [reflexivity|].
    split; intros; try discriminate.
    match goal with E : inl _ = inl _ |- _ => injection E as <- end. auto.
  - split; [reflexivity|]. split; [reflexivity|].
    split; intros; try discriminate.
    unfold loaded_posts. cbn [state sent console prevented].
    split; [now rewrite <- app_assoc|]. split; [reflexivity|].
    split.
    + intros feed ps -> ->. reflexivity.
    + intros e ->. reflexivity.
Qed.

End Feed.

(** ** Sign-in page: submitting the form *)

Section Submit.

Context `{Host} `{ErrorText}.
Variable server : Server.

Lemma run_handleSubmit_invalid (s : SignInPage.State)
      (w : World (AuthProvider.State * SignInPage.State)) :
  SignInPage.newErrors (SignInPage.mode s) (SignInPage.formData s) <> [] ->
  run server (SignInSubmit.handleSubmit s) w
  = (inr tt,
     MkWorld (fst (state w),
              SignInPage.setErrors
                (SignInPage.newErrors (SignInPage.mode s) (SignInPage.formData s))
                (SignInSubmit.setApiError (lit "") (snd (state w))))
             (sent w) (console w) (S (prevented w))).
Proof.
  intros Hne. unfold SignInSubmit.handleSubmit. cbn [run].
  rewrite run_bind, run_zoom_snd, run_validate.
  destruct (SignInPage.newErrors _ _); [contradiction|].
  destruct w as [[auth page] rs cs n]. reflexivity.
Qed.

(** The call of the session store that a valid form leads to. *)
Lemma run_handleSubmit_valid (s : SignInPage.State)
      (w : World (AuthProvider.State * SignInPage.State)) :
  SignInPage.newErrors (SignInPage.mode s) (SignInPage.formData s) = [] ->
  run server (SignInSubmit.handleSubmit s) w
  = let formData := SignInPage.formData s in
    let call :=
      if eqb (SignInPage.mode s) (lit "login")
      then run server (AuthProvider.login (SignInPage.username formData)
                                          (SignInPage.password formData))
               (MkWorld (fst (state w)) (sent w) (console w) (S (prevented w)))
      else run server (AuthProvider.signup (SignInPage.username formData)
                                           (SignInPage.email formData)
                                           (SignInPage.password formData)
                                           (SignInPage.name formData))
               (MkWorld (fst (state w)) (sent w) (console w) (S (prevented w))) in
    let page := SignInPage.setErrors []
                  (SignInSubmit.setApiError (lit "") (snd (state w))) in
    (inr tt,
     MkWorld (state (snd call),
              SignInSubmit.setLoading false
                (match fst call with
                 | inl e => SignInSubmit.setApiError (message e)
                              (SignInSubmit.setLoading true page)
                 | inr _ => SignInSubmit.setLoading true page
                 end))
             (sent (snd call)) (console (snd call)) (prevented (snd call))).
Proof.
  intros Hv. unfold SignInSubmit.handleSubmit. cbn [run].
  rewrite run_bind, run_zoom_snd, run_validate. rewrite Hv.
  destruct w as [[auth page] rs cs n]. unfold with_state, on_snd.
  cbn [fst snd state sent console prevented negb run].
  rewrite run_try_finally, run_try_catch. cbv zeta.
  destruct (eqb (SignInPage.mode s) (lit "login"));
    rewrite run_bind, run_zoom_fst; unfold with_state;
    cbn [fst snd state sent console prevented];
    match goal with
    | |- context [run server ?act ?w1] =>
        destruct (run server act w1) as [[e | data] [a' rs' cs' n']]
    end; reflexivity.
Qed.

(** X15. A form that does not pass [validate] never reaches the service:
    [handleSubmit] clears the banner, stores the field errors and returns,
    with no request issued, the session untouched and the loading flag as
    it was. *)
Theorem invalid_form_is_not_submitted :
  forall (s : SignInPage.State)
         (w : World (AuthProvider.State * SignInPage.State)),
    SignInPage.newErrors (SignInPage.mode s) (SignInPage.formData s) <> [] ->
    let out := run server (SignInSubmit.handleSubmit s) w in
    fst out = inr tt
    /\ sent (snd out) = sent w
    /\ console (snd out) = console w
    /\ fst (state (snd out)) = fst (state w)
    /\ SignInPage.errors (snd (state (snd out)))
       = SignInPage.newErrors (SignInPage.mode s) (SignInPage.formData s)
    /\ SignInPage.apiError (snd (state (snd out))) = lit ""
    /\ SignInPage.loading (snd (state (snd out)))
       = SignInPage.loading (snd (state w)).
Proof.
  intros s w Hne. cbv zeta. rewrite (run_handleSubmit_invalid _ _ Hne).
  repeat apply conj; reflexivity.
Qed.

(** X16. A valid form is submitted by exactly one request: the login
    request in login mode, the registration request otherwise.
    [handleSubmit] never rejects and always ends with the loading flag and
    the field errors cleared.  When the call fails the banner shows the
    message of the error and the session is what it was; when it succeeds
    the banner is empty and the session holds [data.user]. *)
Theorem valid_form_outcomes :
  forall (s : SignInPage.State)
         (w : World (AuthProvider.State * SignInPage.State)),
    SignInPage.newErrors (SignInPage.mode s) (SignInPage.formData s) = [] ->
    let out := run server (SignInSubmit.handleSubmit s) w in
    let formData := SignInPage.formData s in
    let req :=
      if eqb (SignInPage.mode s) (lit "login")
      then login_request (SignInPage.username formData) (SignInPage.password formData)
      else register_request (SignInPage.username formData) (SignInPage.email formData)
                            (SignInPage.password formData) (SignInPage.name formData) in
    fst out = inr tt
    /\ sent (snd out) = sent w ++ [req]
    /\ SignInPage.loading (snd (state (snd out))) = false
    /\ SignInPage.errors (snd (state (snd out))) = []
    /\ (forall e, api.fetch_result (server (sent w) req) = inl e ->
                  SignInPage.apiError (snd (state (snd out))) = message e
                  /\ fst (state (snd out)) = fst (state w))
    /\ (forall data u,
          api.fetch_result (server (sent w) req) = inr data ->
          identity_of data = inr u ->
          SignInPage.apiError (snd (state (snd out))) = lit ""
          /\ AuthProvider.user (fst (state (snd out))) = u).
Proof.
  intros s w Hv. cbv zeta. rewrite (run_handleSubmit_valid _ _ Hv). cbv zeta.
  unfold identity_of.
  destruct (eqb (SignInPage.mode s) (lit "login"));
    [rewrite run_login | rewrite run_signup]; cbv zeta;
    cbn [state sent console prevented];
    (destruct (api.fetch_result _) as [e | data];
     [|unfold identity_of; destruct (get_prop data (lit "user")) as [e | u] eqn:Hu]);
    cbn [fst snd state sent console prevented
         SignInPage.loading SignInPage.errors SignInPage.apiError
         SignInSubmit.setLoading SignInSubmit.setApiError SignInPage.setErrors];
    (split; [reflexivity|]); (split; [reflexivity|]);
    (split; [reflexivity|]); (split; [reflexivity|]);
    split; intros;
    repeat match goal with
           | E : inl _ = inl _ |- _ => injection E as E; subst
           | E : inr _ = inr _ |- _ => injection E as E; subst
           end;
    try discriminate; try congruence; auto;
    (split; [reflexivity | cbn; congruence]).
Qed.

End Submit.

(** ** Profile page *)

Section Profile.

Context `{Host}.
Variable server : Server.
Variable userId : prim.
Variable currentUser : Post.User.

Lemma run_loadProfile (w : World ProfilePage.State) :
  run server (ProfilePage.loadProfile userId currentUser) w
  = let req := profile_request userId currentUser in
    let failed (e : js_error) (s : ProfilePage.State) :=
      (inr tt, MkWorld s (sent w ++ [req]) (console w ++ [ConsoleError e])
                       (prevented w)) in
    match api.fetch_result (server (sent w) req) with
    | inl e => failed e (state w)
    | inr data =>
        match get_prop data (lit "user") with
        | inl e => failed e (state w)
        | inr u =>
            match get_prop u (lit "name"), get_prop u (lit "bio") with
            | inr n, inr b =>
                (inr tt,
                 MkWorld (ProfilePage.setFormData
                            (ProfilePage.MkDraft (val_or n (str (lit "")))
                                                 (val_or b (str (lit ""))))
                            (ProfilePage.setProfile u (state w)))
                         (sent w ++ [req]) (console w) (prevented w))
            | inl e, _ => failed e (ProfilePage.setProfile u (state w))
            | inr _, inl e => failed e (ProfilePage.setProfile u (state w))
            end
        end
    end.
Proof.
  unfold ProfilePage.loadProfile.
  rewrite run_try_catch, run_bind, run_api_fetch. cbv zeta.
  fold (profile_request userId currentUser).
  destruct (api.fetch_result _) as [e | data]; [reflexivity|].
  rewrite run_bind, run_lift.
  destruct (get_prop data (lit "user")) as [e | u]; [reflexivity|].
  cbn [run]. rewrite run_bind, run_lift.
  destruct (get_prop u (lit "name")) as [e | n]; [reflexivity|].
  rewrite run_bind, run_lift.
  destruct (get_prop u (lit "bio")) as [e | b]; reflexivity.
Qed.

(** What every run of [loadProfile] has in common. *)
Lemma loadProfile_settles (w : World ProfilePage.State) :
  fst (run server (ProfilePage.loadProfile userId currentUser) w) = inr tt
  /\ sent (snd (run server (ProfilePage.loadProfile userId currentUser) w))
     = sent w ++ [profile_request userId currentUser]
  /\ prevented (snd (run server (ProfilePage.loadProfile userId currentUser) w))
     = prevented w
  /\ ProfilePage.editing
       (state (snd (run server (ProfilePage.loadProfile userId currentUser) w)))
     = ProfilePage.editing (state w).
Proof.
  rewrite run_loadProfile. cbv zeta.
  destruct (api.fetch_result _) as [e | data]; [repeat split|].
  destruct (get_prop data (lit "user")) as [e | u]; [repeat split|].
  destruct (get_prop u (lit "name")) as [e | n]; [repeat split|].
  destruct (get_prop u (lit "bio")) as [e | b]; repeat split.
Qed.

(** X17. [loadProfile] never rejects and issues one request, for the
    profile of [userId], or of the viewer when [userId] is falsy.  When the
    response carries a user, the profile becomes that user and the edit
    draft its name and bio, an absent or falsy one giving the empty
    string.  When the response carries no user, the profile is set to
    [undefined], the draft is kept and the failed read is logged.  When the
    call fails the state is what it was and the error is logged. *)
Theorem loadProfile_outcomes :
  forall w : World ProfilePage.State,
    let out := run server (ProfilePage.loadProfile userId currentUser) w in
    let req := profile_request userId currentUser in
    fst out = inr tt
    /\ sent (snd out) = sent w ++ [req]
    /\ ProfilePage.editing (state (snd out)) = ProfilePage.editing (state w)
    /\ url req
       = API_BASE ++ lit "/users/"
           ++ prim_ToString (if prim_truthy userId then userId
                             else Post.user_id currentUser)
    /\ (forall e, api.fetch_result (server (sent w) req) = inl e ->
                  state (snd out) = state w
                  /\ console (snd out) = console w ++ [ConsoleError e])
    /\ (forall data u,
          api.fetch_result (server (sent w) req) = inr data ->
          get_prop data (lit "user") = inr u ->
          nullish u = false ->
          ProfilePage.profile (state (snd out)) = u
          /\ (exists n b,
                get_prop u (lit "name") = inr n
                /\ get_prop u (lit "bio") = inr b
                /\ ProfilePage.formData (state (snd out))
                   = ProfilePage.MkDraft (val_or n (str (lit "")))
                                         (val_or b (str (lit ""))))
          /\ console (snd out) = console w)
    /\ (forall data,
          api.fetch_result (server (sent w) req) = inr data ->
          get_prop data (lit "user") = inr undefined ->
          ProfilePage.profile (state (snd out)) = undefined
          /\ ProfilePage.formData (state (snd out)) = ProfilePage.formData (state w)
          /\ console (snd out)
             = console w ++ [ConsoleError (TypeErrorRead PUndefined (lit "name"))]).
Proof.
  intros w. cbv zeta.
  destruct (loadProfile_settles w) as (Hfst & Hsent & _ & Hedit).
  split; [exact Hfst|]. split; [exact Hsent|]. split; [exact Hedit|].
  split; [reflexivity|].
  rewrite run_loadProfile. cbv zeta.
  split; [|split].
  - intros e ->. split; reflexivity.
  - intros data u -> -> Hn.
    destruct u as [[]| |fields]; try discriminate; cbn [get_prop];
      try (split; [reflexivity | split; [eexists _, _; repeat split | reflexivity]]).
    destruct (lookup (lit "name") fields), (lookup (lit "bio") fields);
      (split; [reflexivity | split; [eexists _, _; repeat split | reflexivity]]).
  - intros data -> ->. repeat split.
Qed.

Lemma run_checkAuth_settles (w : World AuthProvider.State) :
  fst (run server AuthProvider.checkAuth w) = inr tt
  /\ sent (snd (run server AuthProvider.checkAuth w)) = sent w ++ [me_request]
  /\ AuthProvider.loading (state (snd (run server AuthProvider.checkAuth w))) = false.
Proof. rewrite run_checkAuth. repeat split. Qed.

(** The reload that follows a change of the profile: the profile, then the
    session. *)
Lemma run_reload (w : World (AuthProvider.State * ProfilePage.State)) :
  let out := run server
                 (bind (zoom on_snd (ProfilePage.loadProfile userId currentUser))
                       (fun _ => zoom on_fst AuthProvider.checkAuth)) w in
  fst out = inr tt
  /\ sent (snd out) = sent w ++ [profile_request userId currentUser; me_request]
  /\ ProfilePage.editing (snd (state (snd out))) = ProfilePage.editing (snd (state w))
  /\ AuthProvider.loading (fst (state (snd out))) = false.
Proof.
  cbv zeta. rewrite run_bind, run_zoom_snd.
  destruct (loadProfile_settles (with_state (snd (state w)) w))
    as (Hfst & Hsent & _ & Hedit).
  destruct (run server (ProfilePage.loadProfile userId currentUser)
                (with_state (snd (state w)) w)) as [r w1].
  cbn [fst snd] in *. subst r. rewrite run_zoom_fst.
  unfold with_state. cbn [fst snd state sent console prevented] in *.
  match goal with
  | |- context [run server AuthProvider.checkAuth ?w2] =>
      destruct (run_checkAuth_settles w2) as (Hfst' & Hsent' & Hload);
      destruct (run server AuthProvider.checkAuth w2) as [r' w3]
  end.
  cbn [fst snd state sent console prevented] in *.
  rewrite Hsent', Hsent, <- app_assoc. repeat split; auto.
Qed.

(** X18. Saving the profile never rejects.  When the PATCH fails the page
    stays in edit mode, nothing is loaded again and the error is logged;
    when it succeeds the page leaves edit mode and loads again first the
    profile, then the session, by three requests in all. *)
Theorem update_profile_outcomes :
  forall (s : ProfilePage.State)
         (w : World (AuthProvider.State * ProfilePage.State)),
    let out := run server (ProfilePage.handleUpdateProfile s userId currentUser) w in
    let req := update_profile_request (ProfilePage.formData s) in
    fst out = inr tt
    /\ (forall e, api.fetch_result (server (sent w) req) = inl e ->
                  state (snd out) = state w
                  /\ sent (snd out) = sent w ++ [req]
                  /\ console (snd out) = console w ++ [ConsoleError e])
    /\ (forall data, api.fetch_result (server (sent w) req) = inr data ->
                     sent (snd out)
                     = sent w ++ [req; profile_request userId currentUser; me_request]
                     /\ ProfilePage.editing (snd (state (snd out))) = false
                     /\ AuthProvider.loading (fst (state (snd out))) = false).
Proof.
  intros s w. cbv zeta. unfold ProfilePage.handleUpdateProfile. cbn [run].
  rewrite run_try_catch, run_bind, run_api_fetch.
  fold (update_profile_request (ProfilePage.formData s)).
  cbn [state sent console prevented].
  destruct (api.fetch_result _) as [e | data].
  - cbn. split; [reflexivity|]. split; intros; try discriminate.
    match goal with E : inl _ = inl _ |- _ => injection E as <- end. auto.
  - cbn [run].
    match goal with
    | |- context [run server (bind ?p ?f) ?w1] =>
        destruct (run_reload w1) as (Hfst & Hsent & Hedit & Hload);
        destruct (run server (bind p f) w1) as [r w2]
    end.
    cbn [fst snd state sent console prevented] in *. subst r.
    split; [reflexivity|]. split; intros; try discriminate.
    cbn [fst snd]. rewrite Hsent, Hedit, <- app_assoc. repeat split; auto.
Qed.

(** X19. Changing the photo with no file chosen does nothing at all.  With
    a file, [handlePhotoUpload] never rejects and uploads it as the [photo]
    field of a form; when the upload fails the state is what it was, the
    error is logged and nothing is loaded again; when it succeeds the
    profile, then the session, are loaded again. *)
Theorem photo_upload_outcomes :
  forall (file : option jsstring)
         (w : World (AuthProvider.State * ProfilePage.State)),
    let out := run server (ProfilePage.handlePhotoUpload file userId currentUser) w in
    fst out = inr tt
    /\ (file = None -> snd out = w)
    /\ (forall photo e,
          file = Some photo ->
          api.upload_result (server (sent w) (photo_request photo)) = inl e ->
          state (snd out) = state w
          /\ sent (snd out) = sent w ++ [photo_request photo]
          /\ console (snd out) = console w ++ [ConsoleError e])
    /\ (forall photo data,
          file = Some photo ->
          api.upload_result (server (sent w) (photo_request photo)) = inr data ->
          sent (snd out)
          = sent w ++ [photo_request photo; profile_request userId currentUser;
                       me_request]
          /\ ProfilePage.editing (snd (state (snd out)))
             = ProfilePage.editing (snd (state w))).
Proof.
  intros [photo|] w; cbv zeta; unfold ProfilePage.handlePhotoUpload.
  - rewrite run_try_catch, run_bind, run_api_uploadFile.
    fold (photo_request photo).
    destruct (api.upload_result _) as [e | data] eqn:Hup.
    + cbn. split; [reflexivity|]. split; [discriminate|].
      split; intros photo' x Hf Hr; injection Hf as <-;
        rewrite Hup in Hr; [injection Hr as <- | discriminate]. auto.
    + match goal with
      | |- context [run server (bind ?p ?f) ?w1] =>
          destruct (run_reload w1) as (Hfst & Hsent & Hedit & Hload);
          destruct (run server (bind p f) w1) as [r w2]
      end.
      cbn [fst snd state sent console prevented] in *. subst r.
      split; [reflexivity|]. split; [discriminate|].
      split; intros photo' x Hf Hr; injection Hf as <-;
        rewrite Hup in Hr; [discriminate|].
      cbn [fst snd]. rewrite Hsent, <- app_assoc. auto.
  - cbn. split; [reflexivity|]. split; [reflexivity|].
    split; intros; discriminate.
Qed.

End Profile.

(** ** A like in the feed *)

(** X20. In the feed, where the refresh of a post is [loadFeed], a like
    toggle shows nothing before the service has answered: when the like
    request fails the feed is what it was and is not loaded again; when it
    succeeds the whole feed is loaded again by a second request, and the
    posts shown are the ones that request returns. *)
Theorem like_in_feed_refetches :
  forall `{Host} (server : Server) (post : Post.Post) (viewer : Post.User)
         (w : World FeedPage.State),
    let out := run server (Post.handleLike post viewer (Some FeedPage.loadFeed)) w in
    let req := like_request post (if Post.taken (Post.isLiked post viewer)
                                  then lit "DELETE" else lit "POST") in
    let w1 := MkWorld (state w) (sent w ++ [req]) (console w) (prevented w) in
    fst out = inr tt
    /\ (forall e, api.fetch_result (server (sent w) req) = inl e ->
                  sent (snd out) = sent w ++ [req]
                  /\ state (snd out) = state w
                  /\ console (snd out) = console w ++ [ConsoleError e])
    /\ (forall data, api.fetch_result (server (sent w) req) = inr data ->
                     sent (snd out) = sent w ++ [req; feed_request]
                     /\ FeedPage.posts (state (snd out)) = loaded_posts server w1
                     /\ FeedPage.newPost (state (snd out)) = FeedPage.newPost (state w)
                     /\ FeedPage.loading (state (snd out)) = FeedPage.loading (state w)).
Proof.
  intros H server post viewer w. cbv zeta. rewrite run_handleLike. cbv zeta.
  destruct (api.fetch_result _) as [e | data]; cbn [fst snd].
  - split; [reflexivity|]. split; intros; try discriminate.
    match goal with E : inl _ = inl _ |- _ => injection E as <- end. auto.
  - split; [reflexivity|]. split; intros; try discriminate.
    rewrite call_onUpdate_world, run_loadFeed.
    cbn [fst snd state sent console prevented].
    rewrite <- app_assoc. repeat split.
Qed.

(** ** Witnesses *)

Lemma comment_blank_is_noop_witness :
  let s := PostComment.MkState (lit "  ") true in
  let post := Post.MkPost (PNum 42) None in
  blank (PostComment.comment s) = true
  /\ run offline (@PostComment.handleComment local_host unit s post None)
         (fresh_world (s, tt))
     = (inr tt, MkWorld (s, tt) [] [] 1).
Proof.
  cbv zeta. split; [reflexivity|].
  exact (@comment_blank_is_noop local_host unit offline
           (PostComment.MkState (lit "  ") true) (Post.MkPost (PNum 42) None) None
           (fresh_world (PostComment.MkState (lit "  ") true, tt)) eq_refl).
Defined.

Lemma comment_outcomes_witness :
  let s := PostComment.MkState (lit " nice ") true in
  let post := Post.MkPost (PNum 42) None in
  let out := run offline (@PostComment.handleComment local_host unit s post None)
                 (fresh_world (s, tt)) in
  blank (PostComment.comment s) = false
  /\ fst out = inr tt
  /\ exists rest,
      sent (snd out) = [] ++ @comment_request local_host post (lit " nice ") :: rest.
Proof.
  cbv zeta.
  destruct (@comment_outcomes local_host unit offline
              (PostComment.MkState (lit " nice ") true)
              (Post.MkPost (PNum 42) None) None
              (fresh_world (PostComment.MkState (lit " nice ") true, tt)) eq_refl)
    as (Hfst & Hsent & _).
  split; [reflexivity|]. split; [exact Hfst | exact Hsent].
Defined.

Lemma compose_outcomes_witness :
  let s := FeedPage.MkState (VArr []) (lit "hello") false in
  let out := run (serving (VObj [(lit "posts", VArr [str (lit "hello")])]))
                 (@FeedPage.handleCreatePost local_host s) (fresh_world s) in
  blank (FeedPage.newPost s) = false
  /\ fst out = inr tt
  /\ FeedPage.loading (state (snd out)) = false.
Proof.
  cbv zeta.
  destruct (@compose_outcomes local_host
              (serving (VObj [(lit "posts", VArr [str (lit "hello")])]))
              (FeedPage.MkState (VArr []) (lit "hello") false)
              (fresh_world (FeedPage.MkState (VArr []) (lit "hello") false)) eq_refl)
    as (Hfst & Hload & _).
  split; [reflexivity|]. split; [exact Hfst | exact Hload].
Defined.

Lemma invalid_form_is_not_submitted_witness :
  let s := SignInPage.MkState (lit "login")
             (SignInPage.MkForm (lit "ab") [] (lit "secret1") []) [] [] false in
  let w := fresh_world (AuthProvider.MkState null false, s) in
  let out := run (serving (VObj [(lit "user", alice)]))
                 (@SignInSubmit.handleSubmit local_host plain_errors s) w in
  SignInPage.newErrors (SignInPage.mode s) (SignInPage.formData s) <> []
  /\ fst out = inr tt
  /\ sent (snd out) = [].
Proof.
  cbv zeta.
  assert (Hne : SignInPage.newErrors (lit "login")
                  (SignInPage.MkForm (lit "ab") [] (lit "secret1") []) <> [])
    by discriminate.
  destruct (@invalid_form_is_not_submitted local_host plain_errors
              (serving (VObj [(lit "user", alice)]))
              (SignInPage.MkState (lit "login")
                 (SignInPage.MkForm (lit "ab") [] (lit "secret1") []) [] [] false)
              (fresh_world
                 (AuthProvider.MkState null false,
                  SignInPage.MkState (lit "login")
                    (SignInPage.MkForm (lit "ab") [] (lit "secret1") []) [] [] false))
              Hne)
    as (Hfst & Hsent & _).
  split; [exact Hne|]. split; [exact Hfst | exact Hsent].
Defined.

Lemma valid_form_outcomes_witness :
  let s := SignInPage.MkState (lit "signup")
             (SignInPage.MkForm (lit "newuser1") (lit "newuser1@test.com")
                                (lit "secret1") (lit "New User")) [] [] false in
  let w := fresh_world (AuthProvider.MkState null false, s) in
  let out := run (serving (VObj [(lit "user", alice)]))
                 (@SignInSubmit.handleSubmit local_host plain_errors s) w in
  SignInPage.newErrors (SignInPage.mode s) (SignInPage.formData s) = []
  /\ fst out = inr tt
  /\ sent (snd out)
     = [] ++ [@register_request local_host (lit "newuser1") (lit "newuser1@test.com")
                                (lit "secret1") (lit "New User")]
  /\ SignInPage.loading (snd (state (snd out))) = false.
Proof.
  cbv zeta.
  destruct (@valid_form_outcomes local_host plain_errors
              (serving (VObj [(lit "user", alice)]))
              (SignInPage.MkState (lit "signup")
                 (SignInPage.MkForm (lit "newuser1") (lit "newuser1@test.com")
                                    (lit "secret1") (lit "New User")) [] [] false)
              (fresh_world
                 (AuthProvider.MkState null false,
                  SignInPage.MkState (lit "signup")
                    (SignInPage.MkForm (lit "newuser1") (lit "newuser1@test.com")
                                       (lit "secret1") (lit "New User")) [] [] false))
              eq_refl)
    as (Hfst & Hsent & Hload & _).
  split; [reflexivity|]. split; [exact Hfst|]. split; [exact Hsent | exact Hload].
Defined.

(** ** Post: the request of the like toggle *)

(** C3, as stated, fails for a viewer whose id is [undefined]: an entry
    that carries only a user-id field, of another user, has no user
    reference, so [like.user?.id] reads [undefined] and compares equal to
    the viewer's id; the toggle issues a DELETE although no entry matches
    the viewer under either representation. *)
Lemma like_toggle_viewer_without_id :
  let viewer := Post.MkUser PUndefined in
  let post := Post.MkPost (PNum 1) (Some [Post.MkLike None (PNum 5)]) in
  let out := run (serving (VObj []))
                 (@Post.handleLike local_host unit post viewer None)
                 (fresh_world tt) in
  ~ liked_by post viewer
  /\ sent (snd out)
     = [{| url := lit "http://localhost:3000/likes/1";
           method := Some (lit "DELETE");
           credentials := Some (lit "include");
           headers := [(lit "Content-Type", lit "application/json")];
           body := NoBody |}].
Proof.
  cbv zeta. split; [|reflexivity].
  intros (likes & like & Hl & Hin & Hm). injection Hl as <-.
  destruct Hin as [<- | []].
  destruct Hm as [(ref & Hr & _) | Hm]; discriminate.
Qed.

(** C3, amended.  For a viewer whose id is not [undefined], the like
    toggle issues one request of its own, to the likes endpoint of the
    post: a DELETE exactly when some entry of the post's like collection
    matches the viewer's id, by its nested user reference or by its direct
    user-id field, and a POST otherwise.  It issues no other request: what
    follows is the parent's refresh, which runs only after the request has
    succeeded. *)
Theorem like_toggle_request :
  forall `{Host} (St : Type) (server : Server) (post : Post.Post)
         (viewer : Post.User) (onUpdate : option (Async St unit)) (w : World St),
    Post.user_id viewer <> PUndefined ->
    let out := run server (Post.handleLike post viewer onUpdate) w in
    exists r : request,
      url r = API_BASE ++ lit "/likes/" ++ prim_ToString (Post.post_id post)
      /\ (VITE_API_URL = None ->
          url r = lit "http://localhost:3000/likes/"
                    ++ prim_ToString (Post.post_id post))
      /\ (method r = Some (lit "DELETE") <-> liked_by post viewer)
      /\ (method r = Some (lit "POST") <-> ~ liked_by post viewer)
      /\ body r = NoBody
      /\ credentials r = Some (lit "include")
      /\ headers r = [(lit "Content-Type", lit "application/json")]
      /\ fst out = inr tt
      /\ (forall e,
            api.fetch_result (server (sent w) r) = inl e ->
            snd out = MkWorld (state w) (sent w ++ [r])
                              (console w ++ [ConsoleError e]) (prevented w))
      /\ (forall data,
            api.fetch_result (server (sent w) r) = inr data ->
            onUpdate = None ->
            snd out = MkWorld (state w) (sent w ++ [r]) (console w) (prevented w))
      /\ (forall data refresh,
            api.fetch_result (server (sent w) r) = inr data ->
            onUpdate = Some refresh ->
            snd out
            = snd (run server refresh
                       (MkWorld (state w) (sent w ++ [r]) (console w)
                                (prevented w)))).
Proof.
  intros H St server post viewer onUpdate w Hid. cbv zeta.
  rewrite run_handleLike. cbv zeta.
  pose proof (@isLiked_iff post viewer Hid) as Hliked.
  set (r := like_request post (if Post.taken (Post.isLiked post viewer)
                               then lit "DELETE" else lit "POST")).
  exists r.
  assert (Hurl : url r = API_BASE ++ lit "/likes/"
                           ++ prim_ToString (Post.post_id post)).
  { reflexivity. }
  split; [exact Hurl|].
  split; [intros Henv; rewrite Hurl; unfold API_BASE; now rewrite Henv|].
  split; [|split].
  - unfold r, like_request, api.fetch_request. cbn [method opt_method].
    destruct (Post.taken (Post.isLiked post viewer)).
    + split; [intros _; now apply Hliked | reflexivity].
    + split; [discriminate|]. intros L. apply Hliked in L. discriminate.
  - unfold r, like_request, api.fetch_request. cbn [method opt_method].
    destruct (Post.taken (Post.isLiked post viewer)).
    + split; [discriminate|]. intros N. exfalso. apply N. now apply Hliked.
    + split; [|reflexivity]. intros _ L. apply Hliked in L. discriminate.
  - split; [reflexivity|]. split; [reflexivity|]. split; [reflexivity|].
    destruct (api.fetch_result (server (sent w) r)) as [e | data]; cbn [fst snd].
    + split; [reflexivity|].
      split; [intros e' E; now injection E as <-|].
      split; intros; discriminate.
    + split; [reflexivity|]. split; [intros; discriminate|].
      split.
      * intros data' _ ->. reflexivity.
      * intros data' refresh _ ->. apply call_onUpdate_world.
Qed.

Lemma like_toggle_request_witness :
  let viewer := Post.MkUser (PNum 7) in
  let post :=
    Post.MkPost (PNum 42)
      (Some [Post.MkLike (Some (Post.MkUserRef (PNum 3))) PUndefined;
             Post.MkLike None (PNum 7)]) in
  let out := run (serving (VObj []))
                 (@Post.handleLike local_host unit post viewer None)
                 (fresh_world tt) in
  Post.user_id viewer <> PUndefined
  /\ liked_by post viewer
  /\ sent (snd out)
     = [{| url := lit "http://localhost:3000/likes/42";
           method := Some (lit "DELETE");
           credentials := Some (lit "include");
           headers := [(lit "Content-Type", lit "application/json")];
           body := NoBody |}].
Proof.
  cbv zeta.
  assert (Hid : Post.user_id (Post.MkUser (PNum 7)) <> PUndefined)
    by discriminate.
  destruct (@like_toggle_request local_host unit (serving (VObj []))
              (Post.MkPost (PNum 42)
                 (Some [Post.MkLike (Some (Post.MkUserRef (PNum 3))) PUndefined;
                        Post.MkLike None (PNum 7)]))
              (Post.MkUser (PNum 7)) None (fresh_world tt) Hid)
    as (r & _ & _ & Hdelete & _ & _ & _ & _ & _ & _ & Hnone & _).
  specialize (Hnone (VObj []) eq_refl eq_refl).
  apply (f_equal (@sent unit)) in Hnone. vm_compute in Hnone.
  injection Hnone as Hr.
  split; [exact Hid|]. split; [|reflexivity].
  apply Hdelete. rewrite <- Hr. reflexivity.
Defined.

(** ** Sign-in page: what [validate] reports *)

Lemma newErrors_other_fields (mode : jsstring) (formData : SignInPage.Form)
      (field : jsstring) :
  eqb mode (lit "signup") = false ->
  eqb field (lit "username") = false ->
  eqb field (lit "password") = false ->
  lookup field (SignInPage.newErrors mode formData) = None.
Proof.
  intros Hm Hu Hp. unfold SignInPage.newErrors. rewrite Hm.
  now rewrite !lookup_record_other by assumption.
Qed.

Lemma first_error_pair_none (a b : verdict) :
  first_error [a; b] = None <-> a = None /\ b = None.
Proof.
  rewrite first_error_pair. destruct a; split; try tauto;
    try (intros [? ?]; congruence); intros; discriminate.
Qed.

(** [validate] found nothing exactly when no field has an entry. *)
Lemma newErrors_nil_lookups (mode : jsstring) (formData : SignInPage.Form) :
  SignInPage.newErrors mode formData = []
  <-> lookup (lit "username") (SignInPage.newErrors mode formData) = None
      /\ lookup (lit "password") (SignInPage.newErrors mode formData) = None
      /\ lookup (lit "name") (SignInPage.newErrors mode formData) = None
      /\ lookup (lit "email") (SignInPage.newErrors mode formData) = None.
Proof.
  split.
  - intros ->. repeat split.
  - intros (Hu & Hp & Hn & He). apply newErrors_nil_iff.
    rewrite username_error in Hu. rewrite password_error in Hp.
    apply first_error_pair_none in Hu as [_ Hu].
    apply first_error_pair_none in Hp as [Hp Hpw].
    apply required_none_iff in Hp.
    split; [exact Hu|]. split; [exact Hp|]. split; [exact Hpw|].
    intros ->. rewrite name_error_signup in Hn. rewrite email_error_signup in He.
    rewrite first_error_single in Hn. apply required_none_iff in Hn.
    apply first_error_pair_none in He as [_ He]. auto.
Qed.

(** C5. For each field of the form [validate] runs the validators in a
    fixed order and stores, as the error of the field, the first error
    among their answers: presence then format for the username, the
    password and (in sign-up mode) the email, presence alone for the name.
    A value that fails the presence check is reported with the "is
    required" message, whatever the format check says.  [validate] answers
    [true] exactly when no field is reported, and changes nothing but the
    stored errors. *)
Theorem validate_first_error_wins :
  forall (server : Server) (s : SignInPage.State) (w : World SignInPage.State),
    let out := run server (SignInPage.validate s) w in
    let reported := SignInPage.errors (state (snd out)) in
    let username := SignInPage.username (SignInPage.formData s) in
    let password := SignInPage.password (SignInPage.formData s) in
    let email := SignInPage.email (SignInPage.formData s) in
    let name := SignInPage.name (SignInPage.formData s) in
    lookup (lit "username") reported
      = first_error [validator.required username (Some (lit "Username"));
                     validator.username username]
    /\ lookup (lit "password") reported
       = first_error [validator.required password (Some (lit "Password"));
                      validator.password password]
    /\ lookup (lit "username") reported
       = (if blank username then Some (lit "Username is required")
          else validator.username username)
    /\ lookup (lit "password") reported
       = (if blank password then Some (lit "Password is required")
          else validator.password password)
    /\ (if eqb (SignInPage.mode s) (lit "signup")
        then lookup (lit "name") reported
             = first_error [validator.required name (Some (lit "Name"))]
             /\ lookup (lit "email") reported
                = first_error [validator.required email (Some (lit "Email"));
                               validator.email email]
             /\ lookup (lit "email") reported
                = (if blank email then Some (lit "Email is required")
                   else validator.email email)
        else lookup (lit "name") reported = None
             /\ lookup (lit "email") reported = None)
    /\ (fst out = inr true
        <-> lookup (lit "username") reported = None
            /\ lookup (lit "password") reported = None
            /\ lookup (lit "name") reported = None
            /\ lookup (lit "email") reported = None)
    /\ (fst out = inr true \/ fst out = inr false)
    /\ SignInPage.mode (state (snd out)) = SignInPage.mode (state w)
    /\ SignInPage.formData (state (snd out)) = SignInPage.formData (state w)
    /\ SignInPage.apiError (state (snd out)) = SignInPage.apiError (state w)
    /\ SignInPage.loading (state (snd out)) = SignInPage.loading (state w)
    /\ sent (snd out) = sent w
    /\ console (snd out) = console w.
Proof.
  intros server s w. cbv zeta. rewrite run_validate.
  cbn [fst snd state sent console SignInPage.errors SignInPage.setErrors
       SignInPage.mode SignInPage.formData SignInPage.apiError SignInPage.loading].
  rewrite username_error, password_error.
  split; [reflexivity|]. split; [reflexivity|].
  split; [apply first_error_required_then|].
  split; [apply first_error_required_then|].
  split; [|split; [|split; [|repeat split]]].
  - destruct (eqb (SignInPage.mode s) (lit "signup")) eqn:Hm.
    + apply eqb_true_iff in Hm. rewrite Hm.
      rewrite name_error_signup, email_error_signup.
      split; [reflexivity|]. split; [reflexivity|].
      apply first_error_required_then.
    + split; apply newErrors_other_fields; auto.
  - rewrite <- username_error with (mode := SignInPage.mode s).
    rewrite <- password_error with (mode := SignInPage.mode s).
    rewrite <- newErrors_nil_lookups.
    destruct (SignInPage.newErrors _ _); split; intros E;
      solve [reflexivity | discriminate E].
  - destruct (SignInPage.newErrors _ _); auto.
Qed.

(** C6. What [validate] checks depends on the mode.  In sign-in mode the
    name and the email never produce an error and do not influence the
    run: only the username and the password are validated, and [validate]
    answers [true] exactly when both pass.  In sign-up mode the name is
    validated for presence and the email for presence and format, next to
    the username and the password, which are validated alike in both
    modes; [validate] then answers [true] exactly when it does in sign-in
    mode and the name and the email pass as well. *)
Theorem validate_depends_on_mode :
  forall (server : Server) (formData : SignInPage.Form)
         (errors : SignInPage.Errors) (apiError : jsstring) (loading : bool)
         (w : World SignInPage.State),
    let page mode form := SignInPage.MkState mode form errors apiError loading in
    let signin := run server (SignInPage.validate (page (lit "login") formData)) w in
    let signup := run server (SignInPage.validate (page (lit "signup") formData)) w in
    let signin_errors := SignInPage.errors (state (snd signin)) in
    let signup_errors := SignInPage.errors (state (snd signup)) in
    let username := SignInPage.username formData in
    let password := SignInPage.password formData in
    let email := SignInPage.email formData in
    let name := SignInPage.name formData in
    lookup (lit "name") signin_errors = None
    /\ lookup (lit "email") signin_errors = None
    /\ (forall email' name' : jsstring,
          run server
              (SignInPage.validate
                 (page (lit "login")
                       (SignInPage.MkForm username email' password name'))) w
          = signin)
    /\ (fst signin = inr true
        <-> validator.username username = None
            /\ blank password = false
            /\ validator.password password = None)
    /\ lookup (lit "name") signup_errors
       = validator.required name (Some (lit "Name"))
    /\ lookup (lit "email") signup_errors
       = first_error [validator.required email (Some (lit "Email"));
                      validator.email email]
    /\ (fst signup = inr true
        <-> fst signin = inr true
            /\ blank name = false
            /\ validator.email email = None)
    /\ lookup (lit "username") signup_errors = lookup (lit "username") signin_errors
    /\ lookup (lit "password") signup_errors = lookup (lit "password") signin_errors
    /\ lookup (lit "username") signin_errors
       = first_error [validator.required username (Some (lit "Username"));
                      validator.username username]
    /\ lookup (lit "password") signin_errors
       = first_error [validator.required password (Some (lit "Password"));
                      validator.password password]
    /\ (let filled := SignInPage.MkForm (lit "valid_user1") [] (lit "secret1") [] in
        fst (run server (SignInPage.validate (page (lit "login") filled)) w)
        = inr true
        /\ fst (run server (SignInPage.validate (page (lit "signup") filled)) w)
           = inr false
        /\ SignInPage.errors
             (state (snd (run server
                              (SignInPage.validate (page (lit "signup") filled)) w)))
           = [(lit "name", lit "Name is required");
              (lit "email", lit "Email is required")]).
Proof.
  intros server formData errors apiError loading w. cbv zeta.
  rewrite !run_validate.
  cbn [fst snd state SignInPage.errors SignInPage.setErrors
       SignInPage.mode SignInPage.formData].
  assert (Hin : forall fd,
             (match SignInPage.newErrors (lit "login") fd with
              | [] => true | _ => false end = true)
             <-> validator.username (SignInPage.username fd) = None
                 /\ blank (SignInPage.password fd) = false
                 /\ validator.password (SignInPage.password fd) = None).
  { intros fd.
    assert (Hnil := newErrors_nil_iff (lit "login") fd).
    destruct (SignInPage.newErrors (lit "login") fd) as [|p l].
    - split; [intros _ | reflexivity].
      destruct Hnil as [Hnil _]. destruct (Hnil eq_refl) as (? & ? & ? & _). auto.
    - split; [discriminate|]. intros (Hu & Hp & Hpw).
      destruct Hnil as [_ Hnil]. exfalso.
      assert (E : p :: l = []); [|discriminate E].
      apply Hnil. split; [exact Hu|]. split; [exact Hp|]. split; [exact Hpw|].
      intros Hmode. discriminate Hmode. }
  assert (Hup : forall fd,
             (match SignInPage.newErrors (lit "signup") fd with
              | [] => true | _ => false end = true)
             <-> (validator.username (SignInPage.username fd) = None
                  /\ blank (SignInPage.password fd) = false
                  /\ validator.password (SignInPage.password fd) = None)
                 /\ blank (SignInPage.name fd) = false
                 /\ validator.email (SignInPage.email fd) = None).
  { intros fd.
    assert (Hnil := newErrors_nil_iff (lit "signup") fd).
    destruct (SignInPage.newErrors (lit "signup") fd) as [|p l].
    - split; [intros _ | reflexivity].
      destruct Hnil as [Hnil _].
      destruct (Hnil eq_refl) as (? & ? & ? & Hs).
      destruct (Hs eq_refl). auto.
    - split; [discriminate|]. intros ((Hu & Hp & Hpw) & Hn & He).
      destruct Hnil as [_ Hnil]. exfalso.
      assert (E : p :: l = []); [|discriminate E].
      apply Hnil. split; [exact Hu|]. split; [exact Hp|]. split; [exact Hpw|].
      intros _. split; assumption. }
  rewrite !username_error, !password_error, name_error_signup, email_error_signup.
  rewrite first_error_single.
  split; [apply newErrors_login_fields; reflexivity|].
  split; [apply newErrors_login_fields; reflexivity|].
  split.
  { intros email' name'. rewrite run_validate.
    cbn [SignInPage.mode SignInPage.formData].
    now rewrite (newErrors_login_ignores formData email' name'). }
  split.
  { split; intros E.
    - apply Hin. now injection E.
    - apply Hin in E. now rewrite E. }
  split; [reflexivity|]. split; [reflexivity|].
  split.
  { split.
    - intros E. injection E as E. apply Hup in E as [Hl [Hn He]].
      split; [|auto]. apply Hin in Hl. now rewrite Hl.
    - intros (E & Hn & He). injection E as E. apply Hin in E.
      assert (Hs : match SignInPage.newErrors (lit "signup") formData with
                   | [] => true | _ => false end = true) by (apply Hup; auto).
      now rewrite Hs. }
  repeat apply conj; reflexivity.
Qed.
